(** * DataShield table store: a shallow embedding of the data layer

    This development embeds the permission-aware cell store of
    [src/contexts/DataContext.tsx] and the CSV export of
    [src/App.tsx] (handleExportCSV), and states the properties of the
    specification against them.

    Modelling conventions.
    - The React state of the provider is the pair (tables, currentTableId);
      every operation is a function from the state before the call to an
      [Outcome]: the value returned, the state installed by [setTables] /
      [setCurrentTableId], and the toasts and audit records emitted, or the
      exception thrown.  An operation that throws installs no state.
      Each call runs against the state the previous call installed.
    - The surroundings of one call are an [Env]: the signed-in user, the
      reading of [new Date()] and the value of [crypto.randomUUID()].
    - Row and column indices are integers ([Z]).  A JavaScript array is a
      list of slots (an element, [undefined], or a hole) together with its
      own non-index properties.  An array index is an integer from 0 to
      2^32 - 2 and a length is at most 2^32 - 1 ([maxLength]):
      [a[-1] = x] and [a[4294967295] = x] store a property, not an
      element, and growing an array past the cap is a RangeError.
    - A JavaScript number is carried as an IEEE-754 value ([spec_float]);
      the store never computes on cell values.  [version] is an integer.
    - Interpolated messages are kept as lists of fragments rather than
      rendered text. *)

From Stdlib Require Import ZArith String Ascii List Bool Lia SpecFloat.
From stdpp Require Import base option list gmap strings.

Local Open Scope string_scope.
Local Open Scope list_scope.

(** ** Data model *)

Definition Date := Z.

Inductive CellValue :=
| VString (s : string)
| VNumber (x : spec_float)
| VBoolean (b : bool)
| VNull.

Module CellHistoryEntry.
Record t := mk { value : CellValue; timestamp : Date; userId : string }.
End CellHistoryEntry.

Module CellPermissions.
Record t := mk { roles : list string; editable : bool; viewable : bool }.
End CellPermissions.

Module Cell.
Record t := mk {
  value : CellValue;
  confirmed : bool;
  confirmedBy : option string;
  confirmedAt : option Date;
  confirmedComments : option string;
  permissions : option CellPermissions.t;
  history : list CellHistoryEntry.t
}.
End Cell.

(** The literal [{ value: null, confirmed: false, history: [] }]. *)
Definition emptyCell : Cell.t :=
  Cell.mk VNull false None None None None [].

(** ** JavaScript arrays of cells *)

Inductive Slot :=
| Hole
| Undefined
| Item (c : Cell.t).

Module Row.
Record t := mk { elems : list Slot; props : gmap Z Cell.t }.
End Row.

(** The largest length of an array, 2^32 - 1; the array indices are the
    integers from 0 to 2^32 - 2. *)
Definition maxLength : Z := 4294967295.

(** A write at the key [j] stores an element rather than a property: [j]
    is an array index.  A position of the list [l] counts as an element as
    well, in step with [row_get]; on an array, whose length is at most
    [maxLength], every position is an array index already. *)
Definition isElement (l : list Slot) (j : Z) : Prop :=
  (0 <= j /\ (j < maxLength \/ j < Z.of_nat (length l)))%Z.

(** [row[j]], with every falsy result read as [None]: a hole, [undefined]
    and a missing property all fail the tests [if (cell)] and [cell || d].
    Below the length the element is read; an array index from the length
    on reads [undefined]; any other key reads the property. *)
Definition row_get (r : Row.t) (j : Z) : option Cell.t :=
  if decide (0 <= j < Z.of_nat (length (Row.elems r)))%Z then
    match Row.elems r !! Z.to_nat j with
    | Some (Item c) => Some c
    | _ => None
    end
  else if decide (0 <= j < maxLength)%Z then None
  else Row.props r !! j.

(** [a[j] = x] on the elements.  At an array index the element is written:
    in place when [j] is below the length, otherwise the array grows to
    [j + 1] and the gap is left as holes.  At any other key no element is
    written ([None]) and the length stays as it is. *)
Definition arr_set (l : list Slot) (j : Z) (x : Slot) : option (list Slot) :=
  if decide (isElement l j) then
    Some (if decide (Z.to_nat j < length l) then <[Z.to_nat j := x]> l
          else l ++ replicate (Z.to_nat j - length l) Hole ++ [x])
  else None.

(** [row[j] = c]: an element is written at an array index, a property at
    any other key. *)
Definition row_set (r : Row.t) (j : Z) (c : Cell.t) : Row.t :=
  match arr_set (Row.elems r) j (Item c) with
  | Some elems => Row.mk elems (Row.props r)
  | None => Row.mk (Row.elems r) (<[j := c]> (Row.props r))
  end.

(** [rows[i]] on the outer array, which is only ever copied and pushed to,
    so it has neither holes nor properties: a key that is not the position
    of a row reads [undefined]. *)
Definition rows_get (rows : list Row.t) (i : Z) : option Row.t :=
  if decide (0 <= i < Z.of_nat (length rows))%Z then rows !! Z.to_nat i else None.

(** [rows[i]?.[j]]. *)
Definition cell_at (rows : list Row.t) (i j : Z) : option Cell.t :=
  match rows_get rows i with
  | Some r => row_get r j
  | None => None
  end.

(** [[...row]]: the iterator yields [undefined] at a hole and visits no
    property. *)
Definition spread (r : Row.t) : list Slot :=
  (fun s => match s with Hole => Undefined | _ => s end) <$> Row.elems r.

(** [Array(n).fill(null).map(() => ({ value: null, ... }))]. *)
Definition freshRow (n : nat) : Row.t :=
  Row.mk (replicate n (Item emptyCell)) ∅.

Module TableData.
Record t := mk {
  id : string;
  name : string;
  headers : list string;
  rows : list Row.t;
  confirmed : bool;
  confirmedBy : option string;
  confirmedAt : option Date;
  confirmedComments : option string;
  version : Z
}.
End TableData.

(** [{ ...table, rows: updatedRows }] *)
Definition with_rows (t : TableData.t) (rs : list Row.t) : TableData.t :=
  TableData.mk (TableData.id t) (TableData.name t) (TableData.headers t) rs
    (TableData.confirmed t) (TableData.confirmedBy t) (TableData.confirmedAt t)
    (TableData.confirmedComments t) (TableData.version t).

(** [{ ...table, headers: updatedHeaders, rows: updatedRows }] *)
Definition with_headers_rows (t : TableData.t) (hs : list string)
    (rs : list Row.t) : TableData.t :=
  TableData.mk (TableData.id t) (TableData.name t) hs rs
    (TableData.confirmed t) (TableData.confirmedBy t) (TableData.confirmedAt t)
    (TableData.confirmedComments t) (TableData.version t).

(** ** Users *)

Inductive UserRole := admin | dp_team | qa_team | viewer.

Definition role_name (r : UserRole) : string :=
  match r with
  | admin => "admin"
  | dp_team => "dp_team"
  | qa_team => "qa_team"
  | viewer => "viewer"
  end.

Definition is_admin (r : UserRole) : bool :=
  match r with admin => true | _ => false end.

Definition is_dp_team (r : UserRole) : bool :=
  match r with dp_team => true | _ => false end.

Module User.
Record t := mk {
  id : string;
  name : string;
  email : string;
  role : UserRole;
  permissions : list string
}.
End User.

(** [Array.prototype.includes] on an array of strings. *)
Definition includes (l : list string) (x : string) : bool :=
  bool_decide (x ∈ l).

(** ** Provider state, environment, effects *)

Record State := mkState {
  tables : list TableData.t;
  currentTableId : option string
}.

Record Env := mkEnv {
  user : option User.t;
  now : Date;
  uuid : string
}.

Inductive Fragment :=
| Lit (s : string)
| Num (z : Z)
| Json (v : CellValue).

Inductive ToastKind := TSuccess | TError | TInfo.

Inductive Event :=
| Toast (k : ToastKind) (msg : list Fragment)
| AddLog (action resource : string) (details : list Fragment).

Inductive Exn := TypeError | RangeError.

Inductive Outcome (A : Type) :=
| Returns (a : A) (s : State) (evs : list Event)
| Throws (e : Exn).
Arguments Returns {A} a s evs.
Arguments Throws {A} e.

Definition dq : string := String "034"%char EmptyString.

(** [tables.find(table => table.id === id)] *)
Definition findTable (ts : list TableData.t) (i : string) : option TableData.t :=
  List.find (fun t => String.eqb (TableData.id t) i) ts.

(** [tables.find(table => table.id === currentTableId) || null] *)
Definition currentTable (s : State) : option TableData.t :=
  match currentTableId s with
  | Some i => findTable (tables s) i
  | None => None
  end.

(** [table.id === currentTableId] *)
Definition is_current (s : State) (t : TableData.t) : bool :=
  match currentTableId s with
  | Some i => String.eqb (TableData.id t) i
  | None => false
  end.

(** [setTables(tables.map(table => table.id === currentTableId ? f(table) : table))] *)
Definition mapCurrent (s : State) (f : TableData.t -> TableData.t) : State :=
  mkState ((fun t => if is_current s t then f t else t) <$> tables s)
          (currentTableId s).

(** ** Permission engine *)

Definition canEditCell (e : Env) (s : State) (rowIndex colIndex : Z) : bool :=
  match currentTable s, user e with
  | Some t, Some u =>
      if is_admin (User.role u) then true
      else match cell_at (TableData.rows t) rowIndex colIndex with
           | None => true
           | Some cell =>
               match Cell.permissions cell with
               | Some p =>
                   includes (CellPermissions.roles p) (role_name (User.role u))
                   && CellPermissions.editable p
               | None => is_dp_team (User.role u)
               end
           end
  | _, _ => false
  end.

Definition canViewCell (e : Env) (s : State) (rowIndex colIndex : Z) : bool :=
  match currentTable s, user e with
  | Some t, Some u =>
      if is_admin (User.role u) then true
      else match cell_at (TableData.rows t) rowIndex colIndex with
           | None => true
           | Some cell =>
               match Cell.permissions cell with
               | Some p =>
                   includes (CellPermissions.roles p) (role_name (User.role u))
                   && CellPermissions.viewable p
               | None => true
               end
           end
  | _, _ => false
  end.

(** ** Table store operations *)

(** The seed permissions of [createTable], chosen by [colIndex % 3]. *)
Definition seedPermissions (colIndex : nat) : CellPermissions.t :=
  if decide (colIndex mod 3 = 0) then
    CellPermissions.mk ["admin"; "dp_team"] true true
  else if decide (colIndex mod 3 = 1) then
    CellPermissions.mk ["admin"; "dp_team"; "qa_team"] true true
  else
    CellPermissions.mk ["admin"; "qa_team"] false true.

(** [{ ...cell, permissions: p }] *)
Definition with_permissions (c : Cell.t) (p : CellPermissions.t) : Cell.t :=
  Cell.mk (Cell.value c) (Cell.confirmed c) (Cell.confirmedBy c)
    (Cell.confirmedAt c) (Cell.confirmedComments c) (Some p) (Cell.history c).

(** [initialRows: number = 10], and the length [Array.from] reads from it. *)
Definition initialRowCount (initialRows : option Z) : Z :=
  match initialRows with Some n => n | None => 10%Z end.

(** [Array.from({ length: n }, f)] makes an array of [n] elements, none for
    a negative [n]; it starts from [new Array(n)], a RangeError when [n]
    is above [maxLength]. *)
Definition createTable (e : Env) (s : State) (name : string)
    (headers : list string) (initialRows : option Z) : Outcome unit :=
  match user e with
  | None => Returns tt s []
  | Some _ =>
      let n := initialRowCount initialRows in
      if decide (maxLength < n)%Z then Throws RangeError else
      let emptyRows : list (list Cell.t) :=
        replicate (Z.to_nat n) ((fun _ => emptyCell) <$> headers) in
      let rows : list Row.t :=
        (fun row =>
           Row.mk (Item <$> imap (fun colIndex cell =>
                                    with_permissions cell (seedPermissions colIndex))
                                 row) ∅)
        <$> emptyRows in
      let newTable :=
        TableData.mk (uuid e) name headers rows false None None None 1%Z in
      Returns tt
        (mkState (tables s ++ [newTable]) (Some (TableData.id newTable)))
        [AddLog "create" "table" [Lit "Created new table: "; Lit name];
         Toast TSuccess [Lit "Table "; Lit dq; Lit name; Lit dq;
                         Lit " created successfully with "; Num n;
                         Lit " empty rows"]]
  end.

Definition selectTable (s : State) (id : string) : Outcome unit :=
  match findTable (tables s) id with
  | Some table =>
      Returns tt (mkState (tables s) (Some id))
        [AddLog "read" "table" [Lit "Selected table: "; Lit (TableData.name table)]]
  | None => Returns tt s []
  end.

(** The guarded loop of [updateCell]:
    [if (!updatedRows[rowIndex]) while (updatedRows.length <= rowIndex) push(...)].
    A row is an array, hence truthy, so the test fails exactly when the row
    is missing; the loop then pushes [rowIndex + 1 - length] fresh rows, and
    none at all when that number is negative.  A push onto an array of
    length [maxLength] is a RangeError, so the loop ends in one ([None])
    when [rowIndex] is [maxLength] or more. *)
Definition pushRows (rows : list Row.t) (ncols : nat) (rowIndex : Z)
    : option (list Row.t) :=
  match rows_get rows rowIndex with
  | Some _ => Some rows
  | None =>
      if decide (maxLength <= rowIndex)%Z then None
      else Some (rows ++ replicate (Z.to_nat (rowIndex + 1 - Z.of_nat (length rows)))
                                   (freshRow ncols))
  end.

(** [{ ...currentCell, value, history: [...(currentCell.history || []), entry] }] *)
Definition editedCell (c : Cell.t) (v : CellValue) (h : CellHistoryEntry.t) : Cell.t :=
  Cell.mk v (Cell.confirmed c) (Cell.confirmedBy c) (Cell.confirmedAt c)
    (Cell.confirmedComments c) (Cell.permissions c) (Cell.history c ++ [h]).

(** [cell?.confirmed] as a condition. *)
Definition isConfirmed (c : option Cell.t) : bool :=
  match c with Some c => Cell.confirmed c | None => false end.

Definition permissionToast : Event :=
  Toast TError [Lit "You don't have permission to edit this cell"].

Definition lockedToast : Event :=
  Toast TError [Lit "This cell is confirmed and cannot be edited"].

(** The assignment [updatedRows[rowIndex][colIndex] = ...] writes into the
    row array that the previous state holds too ([updatedRows] is a shallow
    copy).  The same call then replaces that state through [setTables], and
    every table holding the row (those with the selected id) receives
    [updatedRows], so what is installed is the functional update below.  The
    same holds of [confirmCell] and [setCellPermissions]. *)
Definition updateCell (e : Env) (s : State) (rowIndex colIndex : Z)
    (value : CellValue) : Outcome bool :=
  match currentTable s, user e with
  | Some t, Some u =>
      if negb (canEditCell e s rowIndex colIndex) then
        Returns false s [permissionToast]
      else if isConfirmed (cell_at (TableData.rows t) rowIndex colIndex) then
        Returns false s [lockedToast]
      else
        match pushRows (TableData.rows t) (length (TableData.headers t)) rowIndex with
        | None => Throws RangeError
        | Some updatedRows =>
            match rows_get updatedRows rowIndex with
            | None => Throws TypeError
            | Some row =>
                let currentCell := default emptyCell (row_get row colIndex) in
                let historyEntry :=
                  CellHistoryEntry.mk (Cell.value currentCell) (now e) (User.id u) in
                let updatedRows :=
                  <[Z.to_nat rowIndex :=
                      row_set row colIndex (editedCell currentCell value historyEntry)]>
                    updatedRows in
                Returns true
                  (mapCurrent s (fun table => with_rows table updatedRows))
                  [AddLog "update" "cell"
                     [Lit "Updated cell at ["; Num rowIndex; Lit ","; Num colIndex;
                      Lit "] in table "; Lit dq; Lit (TableData.name t); Lit dq;
                      Lit " from "; Json (Cell.value currentCell);
                      Lit " to "; Json value]]
            end
        end
  | _, _ => Returns false s []
  end.

Definition confirmToast : Event :=
  Toast TError [Lit "You don't have permission to confirm data"].

(** [{ ...currentCell, confirmed: true, confirmedBy, confirmedAt, confirmedComments }] *)
Definition confirmedCell (c : Cell.t) (by_ : string) (at_ : Date)
    (comments : option string) : Cell.t :=
  Cell.mk (Cell.value c) true (Some by_) (Some at_) comments
    (Cell.permissions c) (Cell.history c).

Definition confirmCell (e : Env) (s : State) (rowIndex colIndex : Z)
    (comments : option string) : Outcome unit :=
  match currentTable s, user e with
  | Some t, Some u =>
      if negb (includes (User.permissions u) "confirm_data") then
        Returns tt s [confirmToast]
      else
        let updatedRows := TableData.rows t in
        match rows_get updatedRows rowIndex with
        | None => Throws TypeError
        | Some row =>
            match row_get row colIndex with
            | Some currentCell =>
                let updatedRows :=
                  <[Z.to_nat rowIndex :=
                      row_set row colIndex
                        (confirmedCell currentCell (User.id u) (now e) comments)]>
                    updatedRows in
                Returns tt
                  (mapCurrent s (fun table => with_rows table updatedRows))
                  [AddLog "confirm" "cell"
                     [Lit "Confirmed cell at ["; Num rowIndex; Lit ",";
                      Num colIndex; Lit "] in table "; Lit dq;
                      Lit (TableData.name t); Lit dq];
                   Toast TSuccess [Lit "Cell confirmed successfully"]]
            | None => Returns tt s []
            end
        end
  | _, _ => Returns tt s []
  end.

Definition confirmTable (e : Env) (s : State) (comments : option string)
    : Outcome unit :=
  match currentTable s, user e with
  | Some t, Some u =>
      if negb (includes (User.permissions u) "confirm_data") then
        Returns tt s [confirmToast]
      else
        let updatedTable :=
          TableData.mk (TableData.id t) (TableData.name t) (TableData.headers t)
            (TableData.rows t) true (Some (User.id u)) (Some (now e)) comments
            (TableData.version t + 1)%Z in
        Returns tt
          (mapCurrent s (fun _ => updatedTable))
          [AddLog "confirm" "table"
             [Lit "Confirmed table "; Lit dq; Lit (TableData.name t); Lit dq;
              Lit " (version "; Num (TableData.version updatedTable); Lit ")"];
           Toast TSuccess
             [Lit "Table confirmed successfully (version ";
              Num (TableData.version updatedTable); Lit ")"]]
  | _, _ => Returns tt s []
  end.

Definition addRow (e : Env) (s : State) : Outcome unit :=
  match currentTable s, user e with
  | Some t, Some _ =>
      let newRow := freshRow (length (TableData.headers t)) in
      let updatedRows := TableData.rows t ++ [newRow] in
      Returns tt
        (mapCurrent s (fun table => with_rows table updatedRows))
        [AddLog "create" "row"
           [Lit "Added new row to table "; Lit dq; Lit (TableData.name t); Lit dq]]
  | _, _ => Returns tt s []
  end.

Definition addColumn (e : Env) (s : State) (header : string) : Outcome unit :=
  match currentTable s, user e with
  | Some t, Some _ =>
      let updatedHeaders := TableData.headers t ++ [header] in
      let updatedRows :=
        (fun row => Row.mk (spread row ++ [Item emptyCell]) ∅)
        <$> TableData.rows t in
      Returns tt
        (mapCurrent s (fun table => with_headers_rows table updatedHeaders updatedRows))
        [AddLog "create" "column"
           [Lit "Added new column "; Lit dq; Lit header; Lit dq;
            Lit " to table "; Lit dq; Lit (TableData.name t); Lit dq];
         Toast TSuccess [Lit "Column "; Lit dq; Lit header; Lit dq;
                         Lit " added successfully"]]
  | _, _ => Returns tt s []
  end.

Definition adminToast : Event :=
  Toast TError [Lit "Only admins can set cell permissions"].

Definition setCellPermissions (e : Env) (s : State) (rowIndex colIndex : Z)
    (permissions : CellPermissions.t) : Outcome unit :=
  match currentTable s, user e with
  | Some t, Some u =>
      if negb (is_admin (User.role u)) then
        Returns tt s [adminToast]
      else
        let updatedRows := TableData.rows t in
        match rows_get updatedRows rowIndex with
        | None => Throws TypeError
        | Some row =>
            match row_get row colIndex with
            | Some currentCell =>
                let updatedRows :=
                  <[Z.to_nat rowIndex :=
                      row_set row colIndex (with_permissions currentCell permissions)]>
                    updatedRows in
                Returns tt
                  (mapCurrent s (fun table => with_rows table updatedRows))
                  [AddLog "update" "permissions"
                     [Lit "Updated permissions for cell at ["; Num rowIndex;
                      Lit ","; Num colIndex; Lit "] in table "; Lit dq;
                      Lit (TableData.name t); Lit dq];
                   Toast TSuccess [Lit "Cell permissions updated successfully"]]
            | None => Returns tt s []
            end
        end
  | _, _ => Returns tt s []
  end.

Definition exportTableToPDF (s : State) : Outcome unit :=
  match currentTable s with
  | Some t =>
      Returns tt s
        [AddLog "export" "pdf"
           [Lit "Exported table "; Lit dq; Lit (TableData.name t); Lit dq;
            Lit " to PDF"];
         Toast TSuccess [Lit "PDF export initiated. Check downloads folder."];
         Toast TInfo
           [Lit "In a real app, this would generate a PDF with proper headers, footers, and signatures."]]
  | None => Returns tt s []
  end.

(** The operations of the store as one request type. *)
Inductive Op :=
| CreateTable (name : string) (headers : list string) (initialRows : option Z)
| SelectTable (id : string)
| UpdateCell (rowIndex colIndex : Z) (value : CellValue)
| ConfirmCell (rowIndex colIndex : Z) (comments : option string)
| ConfirmTable (comments : option string)
| ExportTableToPDF
| AddRow
| AddColumn (header : string)
| SetCellPermissions (rowIndex colIndex : Z) (permissions : CellPermissions.t).

(** The state an outcome installs and its events; [None] when it threw. *)
Definition installed {A} (o : Outcome A) : option (State * list Event) :=
  match o with
  | Returns _ s evs => Some (s, evs)
  | Throws _ => None
  end.

Definition run (e : Env) (s : State) (op : Op) : option (State * list Event) :=
  match op with
  | CreateTable n hs k => installed (createTable e s n hs k)
  | SelectTable i => installed (selectTable s i)
  | UpdateCell r c v => installed (updateCell e s r c v)
  | ConfirmCell r c cm => installed (confirmCell e s r c cm)
  | ConfirmTable cm => installed (confirmTable e s cm)
  | ExportTableToPDF => installed (exportTableToPDF s)
  | AddRow => installed (addRow e s)
  | AddColumn h => installed (addColumn e s h)
  | SetCellPermissions r c p => installed (setCellPermissions e s r c p)
  end.

(** ** Notions the properties are stated with *)

(** Successive [updateCell] calls on one cell, each required to succeed;
    every call comes with its own environment (actor and clock). *)
Fixpoint updateSeq (s : State) (rowIndex colIndex : Z)
    (calls : list (Env * CellValue)) : option State :=
  match calls with
  | [] => Some s
  | (e, v) :: rest =>
      match updateCell e s rowIndex colIndex v with
      | Returns true s' _ => updateSeq s' rowIndex colIndex rest
      | _ => None
      end
  end.

(** The cell an edit starts from: the stored one, or the empty cell that
    [updateCell] substitutes when none is stored. *)
Definition cellOrEmpty (s : State) (rowIndex colIndex : Z) : Cell.t :=
  match currentTable s with
  | Some t => default emptyCell (cell_at (TableData.rows t) rowIndex colIndex)
  | None => emptyCell
  end.

(** Every row of the table is as long as the header list. *)
Definition rowsMatchHeaders (t : TableData.t) : Prop :=
  Forall (fun r => length (Row.elems r) = length (TableData.headers t))
         (TableData.rows t).


(** Requests that leave the selection where it is. *)
Definition keepsSelection (op : Op) : Prop :=
  match op with
  | CreateTable _ _ _ | SelectTable _ => False
  | _ => True
  end.

(** A run of requests, each with its own environment; [None] as soon as
    one of them throws. *)
Fixpoint runAll (s : State) (steps : list (Env * Op)) : option State :=
  match steps with
  | [] => Some s
  | (e, op) :: rest =>
      match run e s op with
      | Some (s', _) => runAll s' rest
      | None => None
      end
  end.



(** ** CSV export ([handleExportCSV] of the export page)

    Strings are sequences of bytes here; the comma and the quote are ASCII,
    so testing and replacing them bytewise agrees with the source on UTF-8
    text. *)

Definition comma : ascii := "044"%char.
Definition quote : ascii := "034"%char.
Definition newline : string := String "010"%char EmptyString.

(** [s.includes(ch)] for a one-character needle. *)
Fixpoint str_includes (ch : ascii) (s : string) : bool :=
  match s with
  | EmptyString => false
  | String a s' => Ascii.eqb a ch || str_includes ch s'
  end.

(** [value.replace] with a global pattern: every quote character becomes
    two. *)
Fixpoint doubleQuotes (s : string) : string :=
  match s with
  | EmptyString => EmptyString
  | String a s' =>
      if Ascii.eqb a quote then String quote (String quote (doubleQuotes s'))
      else String a (doubleQuotes s')
  end.

(** The callback of [row.map]: what one cell contributes to [rowData]. *)
Definition csvField (cell : Cell.t) : CellValue :=
  let value :=
    match Cell.value cell with VNull => VString "" | v => v end in
  match value with
  | VString s =>
      if str_includes comma s || str_includes quote s
      then VString (dq +:+ doubleQuotes s +:+ dq)
      else value
  | _ => value
  end.

Inductive ExportResult :=
| Exported (fileName content : string) (evs : list Event)
| NotExported (evs : list Event)
| ExportThrows (e : Exn).

Section CsvExport.

(** [Number.prototype.toString], which [join] applies to a number. *)
Variable numberToString : spec_float -> string.

(** The text [join] prints for an element of [rowData]. *)
Definition joinText (v : CellValue) : string :=
  match v with
  | VString s => s
  | VNumber x => numberToString x
  | VBoolean b => if b then "true" else "false"
  | VNull => ""
  end.

(** One slot under [row.map(...)] followed by [join]: [map] skips a hole,
    which [join] prints as the empty string; on [undefined] the callback
    reads [cell.value] and throws. *)
Definition slotText (s : Slot) : option string :=
  match s with
  | Hole => Some ""
  | Undefined => None
  | Item c => Some (joinText (csvField c))
  end.

(** [rowData.join(',') + '\n'] *)
Definition csvLine (r : Row.t) : option string :=
  fields ← mapM slotText (Row.elems r);
  Some (String.concat "," fields +:+ newline).

(** The text accumulated in [csvContent]; [None] when a callback threw. *)
Definition csvContent (t : TableData.t) (includeHeaders : bool) : option string :=
  lines ← mapM csvLine (TableData.rows t);
  Some ((if includeHeaders
         then String.concat "," (TableData.headers t) +:+ newline
         else "")
        +:+ String.concat "" lines).

Definition handleExportCSV (selectedTable : option TableData.t)
    (includeHeaders : bool) : ExportResult :=
  match selectedTable with
  | None => NotExported [Toast TError [Lit "No table selected for export"]]
  | Some t =>
      match csvContent t includeHeaders with
      | None => ExportThrows TypeError
      | Some content =>
          Exported (TableData.name t +:+ "_export.csv") content
            [AddLog "export" "csv"
               [Lit "Exported table "; Lit dq; Lit (TableData.name t); Lit dq;
                Lit " to CSV"];
             Toast TSuccess [Lit "CSV export completed"]]
      end
  end.

End CsvExport.

(** ** Sample data: the mock users of the identity provider and a small table *)

Definition adminUser : User.t :=
  User.mk "1" "Admin User" "admin@medytox.com" admin
    ["edit_all"; "view_all"; "confirm_data"; "manage_users"].

Definition dpUser : User.t :=
  User.mk "2" "DP Team Member" "dp@medytox.com" dp_team
    ["edit_data"; "view_all"; "confirm_data"].

Definition qaUser : User.t :=
  User.mk "3" "QA Team Member" "qa@medytox.com" qa_team
    ["view_all"; "confirm_data"].

Definition viewerUser : User.t :=
  User.mk "4" "Viewer" "viewer@medytox.com" viewer ["view_all"].

Definition envOf (u : User.t) (time : Date) : Env :=
  mkEnv (Some u) time "table-1".
Arguments envOf u time%_Z.

Definition signedOut : Env := mkEnv None 0%Z "table-1".

Definition emptyState : State := mkState [] None.

(** The state an outcome installs, or the given one when it threw. *)
Definition stateAfter {A} (o : Outcome A) (s : State) : State :=
  match o with
  | Returns _ s' _ => s'
  | Throws _ => s
  end.

(** The events of an outcome, none when it threw. *)
Definition eventsOf {A} (o : Outcome A) : list Event :=
  match o with
  | Returns _ _ evs => evs
  | Throws _ => []
  end.

(** The scenario of the specification: table QC Run 1 with two columns and
    two rows, then 42 entered at (0, 1), then that cell confirmed. *)
Definition qcCreated : State :=
  stateAfter (createTable (envOf adminUser 100%Z) emptyState "QC Run 1"
                ["Batch"; "Result"] (Some 2%Z)) emptyState.

Definition fortyTwo : CellValue := VNumber (S754_finite false 42 0).
Definition ninetyNine : CellValue := VNumber (S754_finite false 99 0).

Definition qcEdited : State :=
  stateAfter (updateCell (envOf dpUser 200%Z) qcCreated 0 1 fortyTwo) qcCreated.

Definition qcConfirmed : State :=
  stateAfter (confirmCell (envOf qaUser 300%Z) qcEdited 0 1 None) qcEdited.

(** A table whose cells carry no permissions record. *)
Definition plainTable : TableData.t :=
  TableData.mk "table-0" "Plain" ["A"] [freshRow 1] false None None None 1%Z.

Definition plainState : State := mkState [plainTable] (Some "table-0").

(** A table whose only cell is confirmed and reserved to the QA team,
    neither editable nor viewable. *)
Definition restrictedCell : Cell.t :=
  Cell.mk (VString "secret") true (Some "3") (Some 50%Z) None
    (Some (CellPermissions.mk ["qa_team"] false false)) [].

Definition restrictedTable : TableData.t :=
  TableData.mk "table-r" "Restricted" ["A"] [Row.mk [Item restrictedCell] ∅]
    false None None None 1%Z.

Definition restrictedState : State := mkState [restrictedTable] (Some "table-r").

(** A table with a comma in a header and in a cell. *)
Definition commaTable : TableData.t :=
  TableData.mk "table-c" "Commas" ["a,b"; "c"]
    [Row.mk [Item (Cell.mk (VString "x,y") false None None None None []);
             Item emptyCell] ∅]
    false None None None 1%Z.

(** An edit beyond the last row, and one beyond the last column. *)
Definition qcSparse : State :=
  stateAfter (updateCell (envOf dpUser 600) qcCreated 3 1 fortyTwo) qcCreated.

Definition qcWide : State :=
  stateAfter (updateCell (envOf viewerUser 600) qcCreated 0 5 fortyTwo) qcCreated.



(** The selected table, or the given one when none is selected. *)
Definition selectedOr (d : TableData.t) (s : State) : TableData.t :=
  default d (currentTable s).

(** * The rest of the data layer and its callers *)

(** ** Further notions on the store *)

(** The rows of the selected table, none when no table is selected. *)
Definition currentRows (s : State) : list Row.t :=
  match currentTable s with
  | Some t => TableData.rows t
  | None => []
  end.

(** What the seed permissions of [createTable] let a role do in a column:
    columns 0, 3, 6, ... belong to admin and dp_team, columns 1, 4, 7, ...
    to admin, dp_team and qa_team, columns 2, 5, 8, ... to admin and
    qa_team and are read-only. *)
Definition seedMayView (r : UserRole) (colIndex : nat) : bool :=
  match r with
  | admin => true
  | dp_team => negb (Nat.eqb (colIndex mod 3) 2)
  | qa_team => negb (Nat.eqb (colIndex mod 3) 0)
  | viewer => false
  end.

Definition seedMayEdit (r : UserRole) (colIndex : nat) : bool :=
  match r with
  | admin => true
  | dp_team => negb (Nat.eqb (colIndex mod 3) 2)
  | qa_team => Nat.eqb (colIndex mod 3) 1
  | viewer => false
  end.

(** ** Audit trail ([AuditProvider], src/contexts/AuditContext) *)

Module AuditLogEntry.
Record t := mk {
  id : string;
  userId : string;
  userName : string;
  userRole : string;
  actionType : string;
  resource : string;
  details : list Fragment;
  timestamp : Date;
  ipAddress : string
}.
End AuditLogEntry.

(** [addLog]: the record is stamped with the signed-in user, a drawn id
    and the clock, and [setLogs(prevLogs => [...prevLogs, newLog])]
    appends it.  Nothing is recorded when nobody is signed in.  The call
    to [console.log] is left out. *)
Definition addLog (u : option User.t) (logId : string) (time : Date)
    (logs : list AuditLogEntry.t) (actionType resource : string)
    (details : list Fragment) : list AuditLogEntry.t :=
  match u with
  | None => logs
  | Some user =>
      logs ++ [AuditLogEntry.mk logId (User.id user) (User.name user)
                 (role_name (User.role user)) actionType resource details time
                 "127.0.0.1"]
  end.

Definition getLogsByUser (logs : list AuditLogEntry.t) (userId : string)
    : list AuditLogEntry.t :=
  List.filter (fun log => String.eqb (AuditLogEntry.userId log) userId) logs.

Definition getLogsByAction (logs : list AuditLogEntry.t) (actionType : string)
    : list AuditLogEntry.t :=
  List.filter (fun log => String.eqb (AuditLogEntry.actionType log) actionType) logs.

Definition getLogsByResource (logs : list AuditLogEntry.t) (resource : string)
    : list AuditLogEntry.t :=
  List.filter (fun log => String.eqb (AuditLogEntry.resource log) resource) logs.

Definition clearLogs (logs : list AuditLogEntry.t) : list AuditLogEntry.t := [].

(** The audit trail after the [addLog] calls among the events of one store
    operation, made by the provider with the same signed-in user.  A store
    operation calls [addLog] at most once ([one_audit_record_per_request]),
    so one drawn id and one clock reading serve the fold. *)
Definition auditAfter (u : option User.t) (logId : string) (time : Date)
    (logs : list AuditLogEntry.t) (evs : list Event) : list AuditLogEntry.t :=
  foldl (fun acc ev =>
           match ev with
           | AddLog a r d => addLog u logId time acc a r d
           | Toast _ _ => acc
           end) logs evs.

(** The [addLog] calls among the events of an operation. *)
Definition auditCalls (evs : list Event) : list Event :=
  List.filter (fun ev => match ev with AddLog _ _ _ => true | _ => false end) evs.

(** ** Identity provider ([AuthProvider], src/contexts/AuthContext) *)

(** The provider's state: the signed-in user and the [medytoxUser] entry of
    local storage (the user as JSON, which parses back to the same
    record). *)
Record AuthState := mkAuth {
  authUser : option User.t;
  medytoxUser : option User.t
}.

Definition mockUsers : list User.t := [adminUser; dpUser; qaUser; viewerUser].

(** [login]: the value the promise resolves to, the state and the toast.
    The password is not looked at. *)
Definition login (st : AuthState) (email password : string)
    : bool * AuthState * list Event :=
  match List.find (fun u => String.eqb (User.email u) email) mockUsers with
  | Some foundUser =>
      (true, mkAuth (Some foundUser) (Some foundUser),
       [Toast TSuccess [Lit "Welcome back, "; Lit (User.name foundUser)]])
  | None => (false, st, [Toast TError [Lit "Invalid credentials"]])
  end.

Definition logout (st : AuthState) : AuthState * list Event :=
  (mkAuth None None, [Toast TInfo [Lit "You have been logged out"]]).

Definition hasPermission (st : AuthState) (permission : string) : bool :=
  match authUser st with
  | None => false
  | Some u => includes (User.permissions u) permission || is_admin (User.role u)
  end.

(** Mounting the provider: [useState(null)] followed by the effect that
    reads local storage. *)
Definition mountAuth (stored : option User.t) : AuthState :=
  match stored with
  | Some u => mkAuth (Some u) stored
  | None => mkAuth None stored
  end.

(** ** Column names of the grid ([getColumnName]) *)

Definition base : string := "ABCDEFGHIJKLMNOPQRSTUVWXYZ".

(** [base[i] + columnName]; an index outside the string reads [undefined],
    which the concatenation prints. *)
Definition prependLetter (i : Z) (columnName : string) : string :=
  match (if decide (i < 0)%Z then None else String.get (Z.to_nat i) base) with
  | Some a => String a columnName
  | None => "undefined" +:+ columnName
  end.

(** The loop [while (num >= 0) { columnName = base[num % 26] + columnName;
    num = Math.floor(num / 26) - 1 }], with a bound on its rounds. *)
Fixpoint columnLoop (fuel : nat) (num : Z) (columnName : string) : string :=
  match fuel with
  | O => columnName
  | S fuel' =>
      if decide (0 <= num)%Z
      then columnLoop fuel' (num / 26 - 1) (prependLetter (num mod 26) columnName)
      else columnName
  end.

(** [num] falls by at least one in every round, so [colIndex + 1] rounds
    are enough: more fuel changes nothing ([columnLoop_fuel]). *)
Definition getColumnName (colIndex : Z) : string :=
  columnLoop (Z.to_nat (colIndex + 1)) colIndex "".

(** ** Permission dialog of the grid ([openCellPermissions],
    [handleSavePermissions]) *)

Module RoleFlags.
Record t := mk { viewable : bool; editable : bool }.
End RoleFlags.

Module RolePermissions.
Record t := mk { admin : RoleFlags.t; dp_team : RoleFlags.t; qa_team : RoleFlags.t }.
End RolePermissions.

Definition defaultRolePermissions : RolePermissions.t :=
  RolePermissions.mk (RoleFlags.mk true true) (RoleFlags.mk true true)
    (RoleFlags.mk true false).

(** The boxes the dialog shows for one role of a permissions record. *)
Definition flagsFor (p : CellPermissions.t) (roleName : string) : RoleFlags.t :=
  RoleFlags.mk
    (includes (CellPermissions.roles p) roleName && CellPermissions.viewable p)
    (includes (CellPermissions.roles p) roleName && CellPermissions.editable p).

(** [openCellPermissions]: the boxes it sets for the cell at
    [rows[rowIndex]?.[colIndex]] of the table on display (it also records
    the selected cell and opens the dialog). *)
Definition openCellPermissions (t : TableData.t) (rowIndex colIndex : Z)
    : RolePermissions.t :=
  match cell_at (TableData.rows t) rowIndex colIndex with
  | Some cell =>
      match Cell.permissions cell with
      | Some cellPermissions =>
          RolePermissions.mk (flagsFor cellPermissions "admin")
            (flagsFor cellPermissions "dp_team") (flagsFor cellPermissions "qa_team")
      | None => defaultRolePermissions
      end
  | None => defaultRolePermissions
  end.

(** The record [handleSavePermissions] builds from the boxes. *)
Definition savedPermissions (rp : RolePermissions.t) : CellPermissions.t :=
  let checked (f : RoleFlags.t) := RoleFlags.viewable f || RoleFlags.editable f in
  CellPermissions.mk
    ((if checked (RolePermissions.admin rp) then ["admin"] else []) ++
     (if checked (RolePermissions.dp_team rp) then ["dp_team"] else []) ++
     (if checked (RolePermissions.qa_team rp) then ["qa_team"] else []))
    (RoleFlags.editable (RolePermissions.admin rp)
     || RoleFlags.editable (RolePermissions.dp_team rp)
     || RoleFlags.editable (RolePermissions.qa_team rp))
    (RoleFlags.viewable (RolePermissions.admin rp)
     || RoleFlags.viewable (RolePermissions.dp_team rp)
     || RoleFlags.viewable (RolePermissions.qa_team rp)).

(** [handleSavePermissions]; the value returned is [permissionsDialogOpen]
    after the call. *)
Definition handleSavePermissions (e : Env) (s : State)
    (selectedCell : option (Z * Z)) (rolePermissions : RolePermissions.t)
    (permissionsDialogOpen : bool) : Outcome bool :=
  match selectedCell with
  | Some (row, col) =>
      match setCellPermissions e s row col (savedPermissions rolePermissions) with
      | Returns _ s' evs => Returns false s' evs
      | Throws x => Throws x
      end
  | None => Returns permissionsDialogOpen s []
  end.

(** A role has a box ticked in the dialog; the dialog has no row for the
    viewer role. *)
Definition ticked (rp : RolePermissions.t) (r : UserRole) : bool :=
  match r with
  | admin => RoleFlags.viewable (RolePermissions.admin rp)
             || RoleFlags.editable (RolePermissions.admin rp)
  | dp_team => RoleFlags.viewable (RolePermissions.dp_team rp)
               || RoleFlags.editable (RolePermissions.dp_team rp)
  | qa_team => RoleFlags.viewable (RolePermissions.qa_team rp)
               || RoleFlags.editable (RolePermissions.qa_team rp)
  | viewer => false
  end.

(** ** New-spreadsheet form of the table list ([TableList] in
    src/components/Layout.tsx) *)

Record CreateForm := mkForm {
  isCreateDialogOpen : bool;
  newTableName : string;
  columnInputs : list string
}.

Section TableList.

(** [String.prototype.trim]. *)
Variable trim : string -> string.

(** [columnInputs.filter(col => col.trim() !== '')] *)
Definition validColumns (form : CreateForm) : list string :=
  List.filter (fun col => negb (String.eqb (trim col) "")) (columnInputs form).

(** [handleCreateTable]: the form after the call, with the store's
    outcome. *)
Definition handleCreateTable (e : Env) (s : State) (form : CreateForm)
    : Outcome CreateForm :=
  if String.eqb (trim (newTableName form)) "" then Returns form s []
  else if Nat.eqb (length (validColumns form)) 0 then Returns form s []
  else
    match createTable e s (newTableName form) (validColumns form) None with
    | Returns _ s' evs => Returns (mkForm false "" [""]) s' evs
    | Throws x => Throws x
    end.

End TableList.

(** A trim that strips ASCII spaces, to run the form on examples. *)
Fixpoint dropSpaces (s : string) : string :=
  match s with
  | String a s' => if Ascii.eqb a " "%char then dropSpaces s' else s
  | EmptyString => EmptyString
  end.

Definition trimSpaces (s : string) : string :=
  String.rev (dropSpaces (String.rev (dropSpaces s))).

(** ** Export of the audit trail ([exportLogs]) *)

Definition auditHeader : string :=
  "ID,User ID,User Name,Role,Action Type,Resource,Details,Timestamp,IP Address".

Section AuditExport.

(** The text of a details string, which this model keeps as fragments, and
    [Date.prototype.toISOString]. *)
Variable renderDetails : list Fragment -> string.
Variable toISOString : Date -> string.

(** One record as a line: the fields joined by commas, the details between
    quotes, nothing escaped. *)
Definition logLine (log : AuditLogEntry.t) : string :=
  AuditLogEntry.id log +:+ "," +:+ AuditLogEntry.userId log +:+ "," +:+
  AuditLogEntry.userName log +:+ "," +:+ AuditLogEntry.userRole log +:+ "," +:+
  AuditLogEntry.actionType log +:+ "," +:+ AuditLogEntry.resource log +:+ "," +:+
  dq +:+ renderDetails (AuditLogEntry.details log) +:+ dq +:+ "," +:+
  toISOString (AuditLogEntry.timestamp log) +:+ "," +:+ AuditLogEntry.ipAddress log.

(** [exportLogs]: the name and the content of the file offered for
    download. *)
Definition exportLogs (logs : list AuditLogEntry.t) (time : Date) : string * string :=
  ("audit_logs_" +:+ toISOString time +:+ ".csv",
   String.concat newline (auditHeader :: (logLine <$> logs))).

End AuditExport.

(** ** Further sample data *)

(** A second table created after the scenario's first one, and an edit of
    its only cell. *)
Definition secondEnv (u : User.t) (time : Date) : Env :=
  mkEnv (Some u) time "table-2".
Arguments secondEnv u time%_Z.

Definition twoTables : State :=
  stateAfter (createTable (secondEnv adminUser 150) qcCreated "Second" ["X"]
                (Some 1%Z)) qcCreated.

Definition twoTablesEdited : State :=
  stateAfter (updateCell (secondEnv dpUser 160) twoTables 0 0 ninetyNine) twoTables.

(** The scenario continued after the confirmation: a row and a column are
    added. *)
Definition laterSteps : list (Env * Op) :=
  [(envOf dpUser 700, AddRow); (envOf adminUser 800, AddColumn "Note")].

Definition qcLater : State := default qcConfirmed (runAll qcConfirmed laterSteps).

(** Two successive edits of the cell (0, 1). *)
Definition twoEdits : list (Env * CellValue) :=
  [(envOf dpUser 200, fortyTwo); (envOf adminUser 250, ninetyNine)].

Definition qcEditedTwice : State := default qcCreated (updateSeq qcCreated 0 1 twoEdits).

(** The permissions an admin sets in the examples. *)
Definition qaOnly : CellPermissions.t := CellPermissions.mk ["qa_team"] true true.

(** A filled-in form with one blank column. *)
Definition sampleForm : CreateForm := mkForm true "Assay" ["Lot"; "  "; "Potency"].

(** An admin record, as local storage may hold it, whose permission list
    lacks [confirm_data]. *)
Definition bareAdmin : User.t :=
  User.mk "9" "Restored Admin" "restored@medytox.com" admin ["view_all"].

(** The scenario table after an edit beyond its last column and a new
    column: [addColumn] copies the holes of row 0 as [undefined]. *)
Definition qcWideThenColumn : State :=
  stateAfter (addColumn (envOf dpUser 610) qcWide "Note") qcWide.

(** * Properties *)

(** ** The selected table *)

Lemma findTable_id ts i t :
  findTable ts i = Some t -> String.eqb (TableData.id t) i = true.
Proof.
  unfold findTable. intros H. apply List.find_some in H. tauto.
Qed.

Lemma findTable_fmap ts i t (f : TableData.t -> TableData.t) :
  (forall t0, String.eqb (TableData.id t0) i = true ->
              String.eqb (TableData.id (f t0)) i = true) ->
  findTable ts i = Some t ->
  findTable ((fun t0 => if String.eqb (TableData.id t0) i then f t0 else t0) <$> ts) i
  = Some (f t).
Proof.
  intros Hf. unfold findTable. induction ts as [|a ts IH]; simpl; [discriminate|].
  destruct (String.eqb (TableData.id a) i) eqn:Ea.
  - intros [= ->]. now rewrite (Hf _ Ea).
  - rewrite Ea. exact IH.
Qed.

Lemma is_current_selected s t : currentTable s = Some t -> is_current s t = true.
Proof.
  unfold currentTable, is_current. destruct (currentTableId s); [|discriminate].
  apply findTable_id.
Qed.

(** After [setTables(tables.map(...))] the selected table is the image of
    the one selected before, as long as the image keeps the id. *)
Lemma currentTable_mapCurrent s t f :
  (forall t0, is_current s t0 = true -> is_current s (f t0) = true) ->
  currentTable s = Some t ->
  currentTable (mapCurrent s f) = Some (f t).
Proof.
  unfold currentTable, mapCurrent, is_current. simpl.
  destruct (currentTableId s) as [i|]; [|discriminate].
  intros Hf Ht. now apply findTable_fmap.
Qed.

Lemma currentTable_with_rows s t rs :
  currentTable s = Some t ->
  currentTable (mapCurrent s (fun table => with_rows table rs)) = Some (with_rows t rs).
Proof. apply (currentTable_mapCurrent s t (fun table => with_rows table rs)). auto. Qed.

(** ** Reading and writing arrays *)

Lemma rows_get_eq rows i :
  rows_get rows i = if decide (i < 0)%Z then None else rows !! Z.to_nat i.
Proof.
  unfold rows_get.
  destruct (decide (0 <= i < Z.of_nat (length rows))%Z), (decide (i < 0)%Z);
    try reflexivity; try lia.
  symmetry. apply lookup_ge_None. lia.
Qed.

Lemma row_get_eq r j :
  row_get r j =
  if decide (isElement (Row.elems r) j) then
    match Row.elems r !! Z.to_nat j with
    | Some (Item c) => Some c
    | _ => None
    end
  else Row.props r !! j.
Proof.
  unfold row_get, isElement.
  destruct (decide (0 <= j < Z.of_nat (length (Row.elems r)))%Z).
  - now rewrite decide_True by lia.
  - destruct (decide (0 <= j < maxLength)%Z).
    + rewrite decide_True by lia.
      now rewrite (lookup_ge_None_2 (Row.elems r)) by lia.
    + now rewrite decide_False by lia.
Qed.

Lemma rows_get_Some rows i r :
  rows_get rows i = Some r ->
  (0 <= i)%Z /\ rows !! Z.to_nat i = Some r /\ Z.to_nat i < length rows.
Proof.
  rewrite ?rows_get_eq. destruct (decide (i < 0)%Z); [discriminate|].
  intros H. split; [lia|]. split; [exact H|]. eapply lookup_lt_Some; eauto.
Qed.

Lemma arr_set_Some_inv l j x l' : arr_set l j x = Some l' -> isElement l j.
Proof. unfold arr_set. now destruct (decide (isElement l j)). Qed.

Lemma arr_set_None_inv l j x : arr_set l j x = None -> ~ isElement l j.
Proof. unfold arr_set. now destruct (decide (isElement l j)). Qed.

Lemma arr_set_lookup l j x l' : arr_set l j x = Some l' -> l' !! Z.to_nat j = Some x.
Proof.
  unfold arr_set. destruct (decide (isElement l j)); [|discriminate].
  intros [= <-]. destruct (decide (Z.to_nat j < length l)).
  - now apply list_lookup_insert_eq.
  - rewrite lookup_app_r by lia.
    rewrite lookup_app_r by (rewrite length_replicate; lia).
    rewrite length_replicate.
    replace (Z.to_nat j - length l - (Z.to_nat j - length l)) with 0 by lia.
    reflexivity.
Qed.

(** Away from the written index a read finds the element that was there;
    the holes of a grown array read as nothing. *)
Lemma arr_set_lookup_ne l j k x l' :
  arr_set l j x = Some l' ->
  Z.to_nat j <> k ->
  match l' !! k with Some (Item c) => Some c | _ => None end =
  match l !! k with Some (Item c) => Some c | _ => None end.
Proof.
  unfold arr_set. destruct (decide (isElement l j)); [|discriminate].
  intros [= <-] Hne. destruct (decide (Z.to_nat j < length l)).
  - now rewrite list_lookup_insert_ne.
  - destruct (decide (k < length l)).
    + now rewrite lookup_app_l.
    + rewrite (lookup_ge_None_2 l k) by lia.
      rewrite lookup_app_r by lia.
      destruct (decide (k - length l < Z.to_nat j - length l)).
      * rewrite lookup_app_l by (rewrite length_replicate; lia).
        rewrite lookup_replicate_2 by lia. reflexivity.
      * rewrite lookup_app_r by (rewrite length_replicate; lia).
        rewrite length_replicate.
        destruct (k - length l - (Z.to_nat j - length l)) as [|m] eqn:E; [lia|].
        reflexivity.
Qed.

Lemma length_arr_set l j x l' :
  arr_set l j x = Some l' -> length l' = Nat.max (length l) (S (Z.to_nat j)).
Proof.
  unfold arr_set. destruct (decide (isElement l j)); [|discriminate].
  intros [= <-]. destruct (decide (Z.to_nat j < length l)).
  - rewrite length_insert. lia.
  - rewrite !length_app, length_replicate. simpl. lia.
Qed.

(** Writing an element leaves every key on the side it was on: the array
    grows up to an array index at most. *)
Lemma isElement_arr_set l j x l' k :
  arr_set l j x = Some l' -> isElement l' k <-> isElement l k.
Proof.
  intros H. pose proof (arr_set_Some_inv _ _ _ _ H) as Hj.
  apply length_arr_set in H. unfold isElement, maxLength in *. rewrite H. lia.
Qed.

Lemma isElement_row_set r j c k :
  isElement (Row.elems (row_set r j c)) k <-> isElement (Row.elems r) k.
Proof.
  unfold row_set. destruct (arr_set (Row.elems r) j (Item c)) eqn:E; simpl.
  - now apply (isElement_arr_set _ _ _ _ _ E).
  - reflexivity.
Qed.

Lemma row_get_set r j c : row_get (row_set r j c) j = Some c.
Proof.
  rewrite row_get_eq.
  unfold row_set. destruct (arr_set (Row.elems r) j (Item c)) as [l'|] eqn:E; simpl.
  - rewrite decide_True
      by (apply (isElement_arr_set _ _ _ _ _ E); now apply arr_set_Some_inv in E).
    now rewrite (arr_set_lookup _ _ _ _ E).
  - rewrite decide_False by (now apply arr_set_None_inv in E).
    apply lookup_insert_eq.
Qed.

Lemma row_get_set_ne r j k c : j <> k -> row_get (row_set r j c) k = row_get r k.
Proof.
  intros Hne. rewrite !row_get_eq.
  destruct (decide (isElement (Row.elems r) k)) as [Hk|Hk].
  - rewrite decide_True by (now apply isElement_row_set).
    unfold row_set. destruct (arr_set (Row.elems r) j (Item c)) as [l'|] eqn:E; simpl.
    + apply (arr_set_lookup_ne _ _ _ _ _ E).
      apply arr_set_Some_inv in E. unfold isElement in E, Hk. lia.
    + reflexivity.
  - rewrite decide_False by (now rewrite isElement_row_set).
    unfold row_set. destruct (arr_set (Row.elems r) j (Item c)) as [l'|] eqn:E; simpl.
    + reflexivity.
    + now apply lookup_insert_ne.
Qed.

(** A cell read at an array index is an element of the array. *)
Lemma row_get_index r j c :
  (0 <= j < maxLength)%Z -> row_get r j = Some c ->
  Row.elems r !! Z.to_nat j = Some (Item c).
Proof.
  intros Hj. rewrite ?row_get_eq.
  rewrite decide_True by (unfold isElement; lia).
  destruct (Row.elems r !! Z.to_nat j) as [[| |c0]|]; congruence.
Qed.

(** A position of the list of elements is read as an element. *)
Lemma row_get_position r j :
  (0 <= j < Z.of_nat (length (Row.elems r)))%Z ->
  row_get r j = match Row.elems r !! Z.to_nat j with
                | Some (Item c) => Some c
                | _ => None
                end.
Proof.
  intros Hj. rewrite ?row_get_eq. now rewrite decide_True by (unfold isElement; lia).
Qed.

Lemma cell_at_insert rows i j row c :
  rows_get rows i = Some row ->
  cell_at (<[Z.to_nat i := row_set row j c]> rows) i j = Some c.
Proof.
  intros H. destruct (rows_get_Some _ _ _ H) as (Hi & _ & Hlt).
  unfold cell_at; rewrite ?rows_get_eq. destruct (decide (i < 0)%Z); [lia|].
  rewrite list_lookup_insert_eq by exact Hlt. apply row_get_set.
Qed.

Lemma rows_get_insert_ne rows i i' x :
  (0 <= i)%Z -> i <> i' ->
  rows_get (<[Z.to_nat i := x]> rows) i' = rows_get rows i'.
Proof.
  intros Hi Hne. rewrite ?rows_get_eq. destruct (decide (i' < 0)%Z); [reflexivity|].
  apply list_lookup_insert_ne. lia.
Qed.

(** A write at one coordinate is not seen at any other. *)
Lemma cell_at_write_other rows i j row x i' j' :
  rows_get rows i = Some row ->
  (i, j) <> (i', j') ->
  cell_at (<[Z.to_nat i := row_set row j x]> rows) i' j' = cell_at rows i' j'.
Proof.
  intros Hrow Hne. destruct (rows_get_Some _ _ _ Hrow) as (Hi & Hl & Hlt).
  unfold cell_at. destruct (decide (i = i')) as [<-|Hii].
  - rewrite Hrow. rewrite ?rows_get_eq. destruct (decide (i < 0)%Z); [lia|].
    rewrite list_lookup_insert_eq by exact Hlt.
    apply row_get_set_ne. congruence.
  - now rewrite rows_get_insert_ne.
Qed.

(** The push loop ends in a RangeError exactly when the row is missing at
    a row index from [maxLength] on. *)
Lemma pushRows_None rows n i :
  pushRows rows n i = None <-> rows_get rows i = None /\ (maxLength <= i)%Z.
Proof.
  unfold pushRows. destruct (rows_get rows i); [intuition discriminate|].
  destruct (decide (maxLength <= i)%Z); intuition discriminate.
Qed.

(** Below the cap the loop completes. *)
Lemma pushRows_is_Some rows n i :
  (i < maxLength)%Z -> is_Some (pushRows rows n i).
Proof.
  intros Hi. destruct (pushRows rows n i) eqn:E; [eauto|].
  apply pushRows_None in E. lia.
Qed.

Lemma rows_get_pushRows rows n i rows' :
  (0 <= i)%Z -> pushRows rows n i = Some rows' -> is_Some (rows_get rows' i).
Proof.
  intros Hi. unfold pushRows. destruct (rows_get rows i) as [r|] eqn:E.
  - intros [= <-]. rewrite E. eauto.
  - destruct (decide (maxLength <= i)%Z); [discriminate|]. intros [= <-].
    rewrite ?rows_get_eq in *. destruct (decide (i < 0)%Z); [lia|].
    apply lookup_lt_is_Some. rewrite length_app, length_replicate. lia.
Qed.

Lemma cell_at_pushRows rows n i rows' i' j' c :
  pushRows rows n i = Some rows' ->
  cell_at rows i' j' = Some c ->
  cell_at rows' i' j' = Some c.
Proof.
  unfold cell_at, pushRows. destruct (rows_get rows i); [now intros [= <-]|].
  destruct (decide (maxLength <= i)%Z); [discriminate|]. intros [= <-].
  destruct (rows_get rows i') as [r|] eqn:E; [|discriminate].
  apply rows_get_Some in E as (Hi & E & _). rewrite ?rows_get_eq.
  destruct (decide (i' < 0)%Z); [lia|].
  now rewrite (lookup_app_l_Some _ _ _ _ E).
Qed.

Lemma cell_at_addRow rows row i j c :
  cell_at rows i j = Some c -> cell_at (rows ++ [row]) i j = Some c.
Proof.
  unfold cell_at. destruct (rows_get rows i) as [r|] eqn:E; [|discriminate].
  apply rows_get_Some in E as (Hi & E & _). rewrite ?rows_get_eq.
  destruct (decide (i < 0)%Z); [lia|].
  now rewrite (lookup_app_l_Some _ _ _ _ E).
Qed.

(** Copying a row with the spread keeps its elements in place; its
    properties, the cells at keys that are not array indices, are not
    copied. *)
Lemma cell_at_addColumn rows i j c :
  (0 <= j < maxLength)%Z ->
  cell_at rows i j = Some c ->
  cell_at ((fun row => Row.mk (spread row ++ [Item emptyCell]) ∅) <$> rows) i j
  = Some c.
Proof.
  intros Hj. unfold cell_at. destruct (rows_get rows i) as [r|] eqn:E; [|discriminate].
  apply rows_get_Some in E as (Hi & E & _). rewrite ?rows_get_eq.
  destruct (decide (i < 0)%Z); [lia|].
  rewrite list_lookup_fmap, E. simpl. intros Hc.
  apply (row_get_index r j c Hj) in Hc.
  rewrite ?row_get_eq. simpl. rewrite decide_True by (unfold isElement; lia).
  assert (H : spread r !! Z.to_nat j = Some (Item c))
    by (unfold spread; now rewrite list_lookup_fmap, Hc).
  now rewrite (lookup_app_l_Some _ _ _ _ H).
Qed.

Lemma row_get_freshRow n j : default emptyCell (row_get (freshRow n) j) = emptyCell.
Proof.
  rewrite row_get_eq. unfold freshRow. simpl.
  destruct (decide (isElement (replicate n (Item emptyCell)) j)).
  - destruct (replicate n (Item emptyCell) !! Z.to_nat j) as [x|] eqn:E;
      [|reflexivity].
    apply lookup_replicate in E as [-> _]. reflexivity.
  - now rewrite lookup_empty.
Qed.

(** The row [updateCell] writes to holds, at every column, the cell the
    table held there before the rows were pushed, or none. *)
Lemma pushRows_current_cell rows n i rows' j row :
  pushRows rows n i = Some rows' ->
  rows_get rows' i = Some row ->
  default emptyCell (row_get row j) = default emptyCell (cell_at rows i j).
Proof.
  unfold pushRows, cell_at. destruct (rows_get rows i) as [r0|] eqn:E.
  - intros [= <-]. rewrite E. now intros [= ->].
  - destruct (decide (maxLength <= i)%Z); [discriminate|]. intros [= <-].
    intros H. apply rows_get_Some in H as (Hi & H & _).
    rewrite rows_get_eq in E. destruct (decide (i < 0)%Z); [lia|].
    apply lookup_ge_None in E. rewrite lookup_app_r in H by exact E.
    apply lookup_replicate in H as [-> _]. apply row_get_freshRow.
Qed.

(** ** Permission engine *)

Lemma is_admin_true r : is_admin r = true <-> r = admin.
Proof. destruct r; simpl; split; congruence. Qed.

(** C6. Admin bypass: with a table selected and an admin signed in, both
    [canViewCell] and [canEditCell] answer true at every coordinate,
    whatever permissions record the cell carries. *)
Theorem admin_bypass e s t u rowIndex colIndex :
  currentTable s = Some t ->
  user e = Some u ->
  User.role u = admin ->
  canViewCell e s rowIndex colIndex = true /\
  canEditCell e s rowIndex colIndex = true.
Proof.
  intros Ht Hu Hr. unfold canViewCell, canEditCell.
  rewrite Ht, Hu, Hr. simpl. split; reflexivity.
Qed.

Lemma admin_bypass_witness :
  canViewCell (envOf adminUser 1) restrictedState 0 0 = true /\
  canEditCell (envOf adminUser 1) restrictedState 0 0 = true.
Proof.
  apply (admin_bypass (envOf adminUser 1) restrictedState restrictedTable adminUser);
    reflexivity.
Defined.

(** C7. Default asymmetry: for an existing cell without a permissions
    record, a role other than admin and dp_team may view but not edit,
    and dp_team may both view and edit. *)
Theorem default_permission_asymmetry e s t u rowIndex colIndex cell :
  currentTable s = Some t ->
  user e = Some u ->
  cell_at (TableData.rows t) rowIndex colIndex = Some cell ->
  Cell.permissions cell = None ->
  (User.role u <> admin -> User.role u <> dp_team ->
     canViewCell e s rowIndex colIndex = true /\
     canEditCell e s rowIndex colIndex = false) /\
  (User.role u = dp_team ->
     canViewCell e s rowIndex colIndex = true /\
     canEditCell e s rowIndex colIndex = true).
Proof.
  intros Ht Hu Hc Hp. unfold canViewCell, canEditCell.
  rewrite Ht, Hu, Hc, Hp.
  destruct (User.role u); simpl; split; intros; try split; congruence.
Qed.

Lemma default_permission_asymmetry_witness :
  (canViewCell (envOf qaUser 1) plainState 0 0 = true /\
   canEditCell (envOf qaUser 1) plainState 0 0 = false) /\
  (canViewCell (envOf dpUser 1) plainState 0 0 = true /\
   canEditCell (envOf dpUser 1) plainState 0 0 = true).
Proof.
  split.
  - apply (default_permission_asymmetry (envOf qaUser 1) plainState plainTable
             qaUser 0 0 emptyCell); try reflexivity; discriminate.
  - apply (default_permission_asymmetry (envOf dpUser 1) plainState plainTable
             dpUser 0 0 emptyCell); reflexivity.
Defined.

(** ** updateCell: guards *)

(** C3. The preconditions of [updateCell] are tried in order and the first
    one that fails decides the outcome, each time with the state left as it
    was: (a) no table selected or nobody signed in gives false and no toast;
    (b) otherwise a failed [canEditCell] gives false and the permission
    toast, whether or not the cell is confirmed; (c) otherwise a confirmed
    cell gives false and the locked toast; and when all three pass the call
    is not rejected. *)
Theorem updateCell_guard_order e s rowIndex colIndex value :
  (currentTable s = None \/ user e = None ->
     updateCell e s rowIndex colIndex value = Returns false s []) /\
  (forall t u,
     currentTable s = Some t -> user e = Some u ->
     canEditCell e s rowIndex colIndex = false ->
     updateCell e s rowIndex colIndex value = Returns false s [permissionToast]) /\
  (forall t u cell,
     currentTable s = Some t -> user e = Some u ->
     canEditCell e s rowIndex colIndex = true ->
     cell_at (TableData.rows t) rowIndex colIndex = Some cell ->
     Cell.confirmed cell = true ->
     updateCell e s rowIndex colIndex value = Returns false s [lockedToast]) /\
  (forall t u,
     currentTable s = Some t -> user e = Some u ->
     canEditCell e s rowIndex colIndex = true ->
     isConfirmed (cell_at (TableData.rows t) rowIndex colIndex) = false ->
     forall s' evs, updateCell e s rowIndex colIndex value <> Returns false s' evs).
Proof.
  unfold updateCell. repeat split.
  - intros [H|H]; rewrite H; [reflexivity|].
    destruct (currentTable s); reflexivity.
  - intros t u Ht Hu Hc. rewrite Ht, Hu, Hc. reflexivity.
  - intros t u cell Ht Hu Hc Hcell Hconf.
    rewrite Ht, Hu, Hc, Hcell. simpl. rewrite Hconf. reflexivity.
  - intros t u Ht Hu Hc Hconf s' evs. rewrite Ht, Hu, Hc, Hconf. simpl.
    destruct (pushRows _ _ _); [destruct (rows_get _ _)|]; discriminate.
Qed.

Lemma updateCell_guard_order_witness :
  updateCell signedOut qcConfirmed 0 1 ninetyNine = Returns false qcConfirmed [] /\
  updateCell (envOf viewerUser 400) qcConfirmed 0 1 ninetyNine =
    Returns false qcConfirmed [permissionToast] /\
  updateCell (envOf dpUser 400) qcConfirmed 0 1 ninetyNine =
    Returns false qcConfirmed [lockedToast] /\
  (forall s' evs,
     updateCell (envOf dpUser 400) qcConfirmed 1 1 ninetyNine <> Returns false s' evs).
Proof.
  split; [|split; [|split]].
  - apply (updateCell_guard_order signedOut qcConfirmed 0 1 ninetyNine).
    right. reflexivity.
  - eapply (proj1 (proj2 (updateCell_guard_order (envOf viewerUser 400)
                            qcConfirmed 0 1 ninetyNine)));
      [vm_compute; reflexivity | reflexivity | vm_compute; reflexivity].
  - eapply (proj1 (proj2 (proj2 (updateCell_guard_order (envOf dpUser 400)
                                   qcConfirmed 0 1 ninetyNine))));
      [vm_compute; reflexivity | reflexivity | vm_compute; reflexivity
      | vm_compute; reflexivity | reflexivity].
  - eapply (proj2 (proj2 (proj2 (updateCell_guard_order (envOf dpUser 400)
                                   qcConfirmed 1 1 ninetyNine))));
      [vm_compute; reflexivity | reflexivity | vm_compute; reflexivity
      | vm_compute; reflexivity].
Defined.

(** The confirmed test of [updateCell] and the two tests before it all
    leave through [return false]: on a confirmed cell of the selected table
    the call returns false and installs the state it started from, with at
    most an error toast and no audit record. *)
Lemma updateCell_on_confirmed e s t rowIndex colIndex cell value :
  currentTable s = Some t ->
  cell_at (TableData.rows t) rowIndex colIndex = Some cell ->
  Cell.confirmed cell = true ->
  exists evs,
    updateCell e s rowIndex colIndex value = Returns false s evs /\
    (evs = [] \/ evs = [permissionToast] \/ evs = [lockedToast]).
Proof.
  intros Ht Hcell Hconf. unfold updateCell. rewrite Ht.
  destruct (user e) as [u|].
  - destruct (canEditCell e s rowIndex colIndex); simpl.
    + rewrite Hcell. simpl. rewrite Hconf.
      exists [lockedToast]. split; [reflexivity|]. right. right. reflexivity.
    + exists [permissionToast]. split; [reflexivity|]. right. left. reflexivity.
  - exists []. split; [reflexivity|]. left. reflexivity.
Qed.

(** ** updateCell: history *)

(** What a successful [updateCell] installs. *)
Lemma updateCell_success e s rowIndex colIndex value s' evs :
  updateCell e s rowIndex colIndex value = Returns true s' evs ->
  exists t u rows',
    currentTable s = Some t /\ user e = Some u /\
    currentTable s' = Some (with_rows t rows') /\
    cell_at rows' rowIndex colIndex =
      Some (editedCell (cellOrEmpty s rowIndex colIndex) value
              (CellHistoryEntry.mk (Cell.value (cellOrEmpty s rowIndex colIndex))
                 (now e) (User.id u))).
Proof.
  unfold updateCell, cellOrEmpty.
  destruct (currentTable s) as [t|] eqn:Ht; [|discriminate].
  destruct (user e) as [u|] eqn:Hu; [|discriminate].
  destruct (negb _); [discriminate|].
  destruct (isConfirmed _); [discriminate|].
  destruct (pushRows _ _ _) as [rows1|] eqn:Hpush; [|discriminate].
  destruct (rows_get rows1 _) as [row|] eqn:Hrow; [|discriminate].
  intros [= <- _]. eexists t, u, _. repeat split.
  - now apply currentTable_with_rows.
  - rewrite (pushRows_current_cell _ _ _ _ colIndex _ Hpush Hrow).
    now apply cell_at_insert.
Qed.

Lemma cellOrEmpty_after s t rows' i j c :
  currentTable s = Some (with_rows t rows') ->
  cell_at rows' i j = Some c ->
  cellOrEmpty s i j = c.
Proof. unfold cellOrEmpty. intros -> H. simpl. now rewrite H. Qed.

(** C2. Append-only history: a successful [updateCell] leaves at its
    coordinate a cell whose value is the new value and whose history is the
    history from before the call followed by exactly one new entry, which
    records the value the cell had immediately before the call (the empty
    cell, with value null and no history, when none was stored), the clock
    reading and the actor's id.  The length grows by one and the earlier
    entries stay where they were. *)
Theorem updateCell_appends_history e s rowIndex colIndex value s' evs :
  updateCell e s rowIndex colIndex value = Returns true s' evs ->
  exists u t' cell',
    user e = Some u /\
    currentTable s' = Some t' /\
    cell_at (TableData.rows t') rowIndex colIndex = Some cell' /\
    Cell.value cell' = value /\
    Cell.history cell' =
      Cell.history (cellOrEmpty s rowIndex colIndex) ++
      [CellHistoryEntry.mk (Cell.value (cellOrEmpty s rowIndex colIndex))
         (now e) (User.id u)] /\
    length (Cell.history cell') =
      S (length (Cell.history (cellOrEmpty s rowIndex colIndex))).
Proof.
  intros H. apply updateCell_success in H as (t & u & rows' & Ht & Hu & Ht' & Hc).
  eexists u, _, _. split; [exact Hu|]. split; [exact Ht'|]. split; [exact Hc|].
  simpl. repeat split. rewrite length_app. simpl. lia.
Qed.

Lemma updateCell_appends_history_witness :
  updateCell (envOf dpUser 200) qcCreated 0 1 fortyTwo =
    Returns true qcEdited
      (eventsOf (updateCell (envOf dpUser 200) qcCreated 0 1 fortyTwo)) /\
  exists t' cell',
    currentTable qcEdited = Some t' /\
    cell_at (TableData.rows t') 0 1 = Some cell' /\
    Cell.value cell' = fortyTwo /\
    Cell.history cell' = [CellHistoryEntry.mk VNull 200%Z "2"].
Proof.
  assert (H : updateCell (envOf dpUser 200) qcCreated 0 1 fortyTwo =
              Returns true qcEdited
                (eventsOf (updateCell (envOf dpUser 200) qcCreated 0 1 fortyTwo)))
    by (vm_compute; reflexivity).
  split; [exact H|].
  destruct (updateCell_appends_history _ _ _ _ _ _ _ H)
    as (u & t' & cell' & Hu & Ht' & Hc & Hv & Hh & _).
  exists t', cell'. split; [exact Ht'|]. split; [exact Hc|]. split; [exact Hv|].
  rewrite Hh. injection Hu as <-. reflexivity.
Defined.

(** X29. Over a run of successful edits of one cell the history only grows at
    its end, by one entry per edit. *)
Lemma updateSeq_history calls : forall s rowIndex colIndex s',
  updateSeq s rowIndex colIndex calls = Some s' ->
  Cell.history (cellOrEmpty s rowIndex colIndex)
    `prefix_of` Cell.history (cellOrEmpty s' rowIndex colIndex) /\
  length (Cell.history (cellOrEmpty s' rowIndex colIndex)) =
    length (Cell.history (cellOrEmpty s rowIndex colIndex)) + length calls.
Proof.
  induction calls as [|[e v] calls IH]; simpl; intros s i j s'.
  - intros [= ->]. split; [reflexivity|lia].
  - destruct (updateCell e s i j v) as [[|] s1 evs|] eqn:E; try discriminate.
    intros H. apply IH in H as [Hp Hl].
    apply updateCell_success in E as (t & u & rows' & _ & _ & Ht' & Hc).
    rewrite (cellOrEmpty_after _ _ _ _ _ _ Ht' Hc) in Hp, Hl. simpl in Hp, Hl.
    split.
    + etransitivity; [|exact Hp]. now apply prefix_app_r.
    + rewrite Hl, length_app. simpl. lia.
Qed.

(** ** confirmCell *)

(** What [confirmCell] installs on a stored cell when the actor holds
    [confirm_data]. *)
Lemma confirmCell_success e s t u rowIndex colIndex comments cell :
  currentTable s = Some t ->
  user e = Some u ->
  includes (User.permissions u) "confirm_data" = true ->
  cell_at (TableData.rows t) rowIndex colIndex = Some cell ->
  exists s' rows' log,
    confirmCell e s rowIndex colIndex comments =
      Returns tt s' [AddLog "confirm" "cell" log;
                     Toast TSuccess [Lit "Cell confirmed successfully"]] /\
    currentTable s' = Some (with_rows t rows') /\
    cell_at rows' rowIndex colIndex =
      Some (confirmedCell cell (User.id u) (now e) comments).
Proof.
  intros Ht Hu Hp Hc. unfold confirmCell. rewrite Ht, Hu, Hp. simpl.
  unfold cell_at in Hc.
  destruct (rows_get (TableData.rows t) rowIndex) as [row|] eqn:Hrow;
    [|discriminate].
  rewrite Hc. eexists _, _, _. repeat split.
  - now apply currentTable_with_rows.
  - now apply cell_at_insert.
Qed.

(** C10. [confirmCell] is not write-once: on a cell that is already
    confirmed, a call by any actor holding [confirm_data] succeeds again
    (audit record and success toast) and leaves the cell confirmed with
    [confirmedBy], [confirmedAt] and [confirmedComments] replaced by this
    call's actor, time and comments, while value, history and permissions
    stay as they were. *)
Theorem confirmCell_overwrites_confirmation e s t u rowIndex colIndex comments cell :
  currentTable s = Some t ->
  user e = Some u ->
  includes (User.permissions u) "confirm_data" = true ->
  cell_at (TableData.rows t) rowIndex colIndex = Some cell ->
  Cell.confirmed cell = true ->
  exists s' t' cell' log,
    confirmCell e s rowIndex colIndex comments =
      Returns tt s' [AddLog "confirm" "cell" log;
                     Toast TSuccess [Lit "Cell confirmed successfully"]] /\
    currentTable s' = Some t' /\
    cell_at (TableData.rows t') rowIndex colIndex = Some cell' /\
    Cell.confirmed cell' = true /\
    Cell.confirmedBy cell' = Some (User.id u) /\
    Cell.confirmedAt cell' = Some (now e) /\
    Cell.confirmedComments cell' = comments /\
    Cell.value cell' = Cell.value cell /\
    Cell.history cell' = Cell.history cell /\
    Cell.permissions cell' = Cell.permissions cell.
Proof.
  intros Ht Hu Hp Hc _.
  destruct (confirmCell_success e s t u rowIndex colIndex comments cell Ht Hu Hp Hc)
    as (s' & rows' & log & Hrun & Ht' & Hc').
  exists s', (with_rows t rows'), (confirmedCell cell (User.id u) (now e) comments), log.
  repeat split; assumption.
Qed.

Lemma confirmCell_overwrites_confirmation_witness :
  exists s' t' cell' log,
    confirmCell (envOf adminUser 900) qcConfirmed 0 1 (Some "second review") =
      Returns tt s' [AddLog "confirm" "cell" log;
                     Toast TSuccess [Lit "Cell confirmed successfully"]] /\
    currentTable s' = Some t' /\
    cell_at (TableData.rows t') 0 1 = Some cell' /\
    Cell.confirmed cell' = true /\
    Cell.confirmedBy cell' = Some "1" /\
    Cell.confirmedAt cell' = Some 900%Z /\
    Cell.confirmedComments cell' = Some "second review" /\
    Cell.value cell' = fortyTwo /\
    Cell.history cell' = [CellHistoryEntry.mk VNull 200%Z "2"] /\
    Cell.permissions cell' =
      Some (CellPermissions.mk ["admin"; "dp_team"; "qa_team"] true true).
Proof.
  eapply (confirmCell_overwrites_confirmation (envOf adminUser 900) qcConfirmed _
            adminUser 0 1 (Some "second review")
            (Cell.mk fortyTwo true (Some "3") (Some 300%Z) None
               (Some (CellPermissions.mk ["admin"; "dp_team"; "qa_team"] true true))
               [CellHistoryEntry.mk VNull 200%Z "2"]));
    [vm_compute; reflexivity | reflexivity | reflexivity
    | vm_compute; reflexivity | reflexivity].
Defined.

(** ** Confirmation is one-way *)

(** Closes a case in which the request returned without installing a new
    state. *)
Ltac same_state H := intros [= <- _]; exact H.

(** The state a request that keeps the selection installs: the state it
    started from, or that state with the tables of the selected id
    rewritten by a function that keeps the id. *)
Lemma run_keeps_selection e s op s' evs :
  keepsSelection op ->
  run e s op = Some (s', evs) ->
  s' = s \/
  exists f, (forall x, is_current s x = true -> TableData.id (f x) = TableData.id x) /\
            s' = mapCurrent s f.
Proof.
  destruct op as [n hs k|i|r c v|r c cm|cm| | |h|r c p]; simpl; try contradiction;
    intros _.
  - unfold updateCell.
    destruct (currentTable s), (user e); try (intros [= <- _]; auto).
    destruct (negb _); [intros [= <- _]; auto|].
    destruct (isConfirmed _); [intros [= <- _]; auto|].
    destruct (pushRows _ _ _); [|discriminate].
    destruct (rows_get _ _); [|discriminate].
    intros [= <- _]. right. eexists. split; [|reflexivity]. auto.
  - unfold confirmCell.
    destruct (currentTable s), (user e); try (intros [= <- _]; auto).
    destruct (negb _); [intros [= <- _]; auto|].
    destruct (rows_get _ _); [|discriminate].
    destruct (row_get _ _); intros [= <- _]; [|auto].
    right. eexists. split; [|reflexivity]. auto.
  - unfold confirmTable.
    destruct (currentTable s) as [t|] eqn:Ht; [|intros [= <- _]; auto].
    destruct (user e); [|intros [= <- _]; auto].
    destruct (negb _); [intros [= <- _]; auto|].
    intros [= <- _]. right. eexists. split; [|reflexivity]. simpl.
    intros x Hx. pose proof (is_current_selected s t Ht) as H1.
    unfold is_current in *. destruct (currentTableId s); [|discriminate].
    apply String.eqb_eq in Hx, H1. congruence.
  - unfold exportTableToPDF. destruct (currentTable s); intros [= <- _]; auto.
  - unfold addRow. destruct (currentTable s), (user e); intros [= <- _]; auto.
    right. eexists. split; [|reflexivity]. auto.
  - unfold addColumn. destruct (currentTable s), (user e); intros [= <- _]; auto.
    right. eexists. split; [|reflexivity]. auto.
  - unfold setCellPermissions.
    destruct (currentTable s), (user e); try (intros [= <- _]; auto).
    destruct (negb _); [intros [= <- _]; auto|].
    destruct (rows_get _ _); [|discriminate].
    destruct (row_get _ _); intros [= <- _]; [|auto].
    right. eexists. split; [|reflexivity]. auto.
Qed.


Lemma findTable_snoc ts x i t :
  findTable ts i = Some t -> findTable (ts ++ [x]) i = Some t.
Proof.
  unfold findTable. induction ts as [|a ts IH]; simpl; [discriminate|].
  destruct (String.eqb (TableData.id a) i); auto.
Qed.

(** No request that completes and keeps the selection clears the
    confirmation of a cell of the selected table or touches its value or
    history; the cell is taken at a column that is an array index. *)
Lemma confirmed_cell_persists e s t op s' evs rowIndex colIndex cell :
  currentTable s = Some t ->
  cell_at (TableData.rows t) rowIndex colIndex = Some cell ->
  Cell.confirmed cell = true ->
  (0 <= colIndex < maxLength)%Z ->
  keepsSelection op ->
  run e s op = Some (s', evs) ->
  exists t' cell',
    currentTable s' = Some t' /\
    cell_at (TableData.rows t') rowIndex colIndex = Some cell' /\
    Cell.confirmed cell' = true /\
    Cell.value cell' = Cell.value cell /\
    Cell.history cell' = Cell.history cell.
Proof.
  intros Ht Hc Hconf Hcol Hop.
  assert (Hsame : exists t' cell',
             currentTable s = Some t' /\
             cell_at (TableData.rows t') rowIndex colIndex = Some cell' /\
             Cell.confirmed cell' = true /\
             Cell.value cell' = Cell.value cell /\
             Cell.history cell' = Cell.history cell) by eauto 10.
  destruct op as [n hs k|i|r c v|r c cm|cm| | |h|r c p]; simpl in Hop;
    try contradiction; simpl.
  - (* updateCell *)
    unfold updateCell. rewrite Ht.
    destruct (user e) as [u|]; [|same_state Hsame].
    destruct (negb _); [same_state Hsame|].
    destruct (isConfirmed _) eqn:Hnc; [same_state Hsame|].
    destruct (pushRows _ _ _) as [rows1|] eqn:Hpush; [|discriminate].
    destruct (rows_get rows1 _) as [row|] eqn:Hrow; [|discriminate].
    intros [= <- _]. eexists _, cell.
    split; [apply (currentTable_with_rows s t); exact Ht|]. simpl.
    split; [|auto].
    rewrite cell_at_write_other;
      [now apply (cell_at_pushRows _ _ _ _ _ _ _ Hpush)|exact Hrow|].
    intros [= -> ->]. rewrite Hc in Hnc. simpl in Hnc. congruence.
  - (* confirmCell *)
    unfold confirmCell. rewrite Ht.
    destruct (user e) as [u|]; [|same_state Hsame].
    destruct (negb _); [same_state Hsame|].
    destruct (rows_get _ _) as [row|] eqn:Hrow; [|discriminate].
    destruct (row_get row c) as [cur|] eqn:Hcur; [|same_state Hsame].
    intros [= <- _].
    destruct (decide ((r, c) = (rowIndex, colIndex))) as [[= -> ->]|Hne].
    + eexists _, _. split; [apply (currentTable_with_rows s t); exact Ht|]. simpl.
      split; [now apply cell_at_insert|].
      unfold cell_at in Hc. rewrite Hrow, Hcur in Hc. injection Hc as ->. auto.
    + eexists _, cell. split; [apply (currentTable_with_rows s t); exact Ht|]. simpl.
      split; [|auto]. now rewrite cell_at_write_other.
  - (* confirmTable *)
    unfold confirmTable. rewrite Ht.
    destruct (user e) as [u|]; [|same_state Hsame].
    destruct (negb _); [same_state Hsame|].
    intros [= <- _]. eexists _, cell. split.
    + apply (currentTable_mapCurrent s t (fun _ => _)); [|exact Ht].
      intros t0 _. exact (is_current_selected s t Ht).
    + simpl. split; [exact Hc|auto].
  - (* exportTableToPDF *)
    unfold exportTableToPDF. rewrite Ht. same_state Hsame.
  - (* addRow *)
    unfold addRow. rewrite Ht.
    destruct (user e) as [u|]; [|same_state Hsame].
    intros [= <- _]. eexists _, cell.
    split; [apply (currentTable_with_rows s t); exact Ht|]. simpl.
    split; [now apply cell_at_addRow|auto].
  - (* addColumn *)
    unfold addColumn. rewrite Ht.
    destruct (user e) as [u|]; [|same_state Hsame].
    intros [= <- _]. eexists _, cell. split.
    + apply (currentTable_mapCurrent s t
               (fun table => with_headers_rows table _ _)); auto.
    + simpl. split; [now apply cell_at_addColumn|auto].
  - (* setCellPermissions *)
    unfold setCellPermissions. rewrite Ht.
    destruct (user e) as [u|]; [|same_state Hsame].
    destruct (negb _); [same_state Hsame|].
    destruct (rows_get _ _) as [row|] eqn:Hrow; [|discriminate].
    destruct (row_get row c) as [cur|] eqn:Hcur; [|same_state Hsame].
    intros [= <- _].
    destruct (decide ((r, c) = (rowIndex, colIndex))) as [[= -> ->]|Hne].
    + eexists _, _. split; [apply (currentTable_with_rows s t); exact Ht|]. simpl.
      split; [now apply cell_at_insert|].
      unfold cell_at in Hc. rewrite Hrow, Hcur in Hc. injection Hc as ->. auto.
    + eexists _, cell. split; [apply (currentTable_with_rows s t); exact Ht|]. simpl.
      split; [|auto]. now rewrite cell_at_write_other.
Qed.





(** X27. Once a cell of the selected table, at a column that is an array
    index, is confirmed, after any run of requests that complete and keep
    the selection, every [updateCell] on it is still rejected and its value
    and history are those it had when confirmed. *)
Lemma confirmed_cell_stays_locked steps : forall s t rowIndex colIndex cell s',
  currentTable s = Some t ->
  cell_at (TableData.rows t) rowIndex colIndex = Some cell ->
  Cell.confirmed cell = true ->
  (0 <= colIndex < maxLength)%Z ->
  Forall (fun step => keepsSelection (snd step)) steps ->
  runAll s steps = Some s' ->
  Cell.value (cellOrEmpty s' rowIndex colIndex) = Cell.value cell /\
  Cell.history (cellOrEmpty s' rowIndex colIndex) = Cell.history cell /\
  forall e value, exists evs,
    updateCell e s' rowIndex colIndex value = Returns false s' evs.
Proof.
  induction steps as [|[e op] steps IH]; simpl;
    intros s t i j cell s' Ht Hc Hconf Hj Hall.
  - intros [= <-]. unfold cellOrEmpty. rewrite Ht, Hc. simpl.
    repeat split. intros e value.
    destruct (updateCell_on_confirmed e s t i j cell value Ht Hc Hconf)
      as (evs & H & _).
    eauto.
  - apply Forall_cons in Hall as [Hop Hall]. simpl in Hop.
    destruct (run e s op) as [[s1 evs1]|] eqn:Hrun; [|discriminate].
    destruct (confirmed_cell_persists e s t op s1 evs1 i j cell
                Ht Hc Hconf Hj Hop Hrun)
      as (t1 & cell1 & Ht1 & Hc1 & Hconf1 & Hv1 & Hh1).
    intros Hrest. rewrite <- Hv1, <- Hh1.
    exact (IH s1 t1 i j cell1 s' Ht1 Hc1 Hconf1 Hj Hall Hrest).
Qed.

(** ** Table version *)

Lemma versions_mapCurrent s (f : TableData.t -> TableData.t) :
  (forall t, TableData.version (f t) = TableData.version t) ->
  TableData.version <$> tables (mapCurrent s f) = TableData.version <$> tables s.
Proof.
  intros Hf. unfold mapCurrent. simpl. generalize (tables s) as l.
  induction l as [|a l IH]; simpl; [reflexivity|].
  f_equal; [|exact IH]. destruct (is_current s a); [apply Hf|reflexivity].
Qed.

Lemma versions_with_rows s rs :
  TableData.version <$> tables (mapCurrent s (fun table => with_rows table rs))
  = TableData.version <$> tables s.
Proof. now apply versions_mapCurrent. Qed.

(** Every request other than table creation and table confirmation leaves
    the version of every table as it was. *)
Lemma versions_frame e s op s' evs :
  match op with
  | CreateTable _ _ _ | ConfirmTable _ => False
  | _ => True
  end ->
  run e s op = Some (s', evs) ->
  TableData.version <$> tables s' = TableData.version <$> tables s.
Proof.
  destruct op as [n hs k|i|r c v|r c cm|cm| | |h|r c p]; simpl; try contradiction;
    intros _.
  - unfold selectTable. destruct (findTable _ _); intros [= <- _]; reflexivity.
  - unfold updateCell.
    destruct (currentTable s), (user e); try (intros [= <- _]; reflexivity).
    destruct (negb _); [intros [= <- _]; reflexivity|].
    destruct (isConfirmed _); [intros [= <- _]; reflexivity|].
    destruct (pushRows _ _ _); [|discriminate].
    destruct (rows_get _ _); [|discriminate].
    intros [= <- _]. apply versions_with_rows.
  - unfold confirmCell.
    destruct (currentTable s), (user e); try (intros [= <- _]; reflexivity).
    destruct (negb _); [intros [= <- _]; reflexivity|].
    destruct (rows_get _ _); [|discriminate].
    destruct (row_get _ _); intros [= <- _]; [apply versions_with_rows|reflexivity].
  - unfold exportTableToPDF. destruct (currentTable s); intros [= <- _]; reflexivity.
  - unfold addRow.
    destruct (currentTable s), (user e); intros [= <- _]; try reflexivity.
    apply versions_with_rows.
  - unfold addColumn.
    destruct (currentTable s), (user e); intros [= <- _]; try reflexivity.
    now apply versions_mapCurrent.
  - unfold setCellPermissions.
    destruct (currentTable s), (user e); try (intros [= <- _]; reflexivity).
    destruct (negb _); [intros [= <- _]; reflexivity|].
    destruct (rows_get _ _); [|discriminate].
    destruct (row_get _ _); intros [= <- _]; [apply versions_with_rows|reflexivity].
Qed.

(** What [confirmTable] installs when the actor holds [confirm_data]. *)
Lemma confirmTable_success e s t u comments :
  currentTable s = Some t -> user e = Some u ->
  includes (User.permissions u) "confirm_data" = true ->
  exists s' evs t',
    confirmTable e s comments = Returns tt s' evs /\
    currentTable s' = Some t' /\
    TableData.version t' = (TableData.version t + 1)%Z /\
    TableData.confirmed t' = true /\
    TableData.version <$> tables s' =
      (fun t0 => if is_current s t0 then (TableData.version t + 1)%Z
                 else TableData.version t0) <$> tables s.
Proof.
  intros Ht Hu Hp. unfold confirmTable. rewrite Ht, Hu, Hp. simpl.
  eexists _, _, _. split; [reflexivity|]. split; [|split; [|split]].
  - apply (currentTable_mapCurrent s t (fun _ => _)); [|exact Ht].
    intros t0 _. exact (is_current_selected s t Ht).
  - reflexivity.
  - reflexivity.
  - unfold mapCurrent. simpl. generalize (tables s) as l.
    induction l as [|a l IH]; simpl; [reflexivity|].
    f_equal; [|exact IH]. destruct (is_current s a); reflexivity.
Qed.

(** C8. Version: a table is created with version 1 and creation leaves the
    tables already present alone; [confirmTable] by an actor holding
    [confirm_data] installs the selected table with its version raised by
    exactly 1 and changes the version of no table with another id; every
    other request (selectTable, addRow, addColumn, updateCell, confirmCell,
    setCellPermissions) keeps the version of every table. *)
Theorem version_only_changes_on_confirmTable e s :
  (forall name headers initialRows s' evs,
     createTable e s name headers initialRows = Returns tt s' evs ->
     s' = s \/
     exists newTable,
       tables s' = tables s ++ [newTable] /\
       currentTableId s' = Some (TableData.id newTable) /\
       TableData.version newTable = 1%Z) /\
  (forall t u comments,
     currentTable s = Some t -> user e = Some u ->
     includes (User.permissions u) "confirm_data" = true ->
     exists s' evs t',
       confirmTable e s comments = Returns tt s' evs /\
       currentTable s' = Some t' /\
       TableData.version t' = (TableData.version t + 1)%Z /\
       TableData.version <$> tables s' =
         (fun t0 => if is_current s t0 then (TableData.version t + 1)%Z
                    else TableData.version t0) <$> tables s) /\
  (forall op s' evs,
     match op with
     | CreateTable _ _ _ | ConfirmTable _ => False
     | _ => True
     end ->
     run e s op = Some (s', evs) ->
     TableData.version <$> tables s' = TableData.version <$> tables s).
Proof.
  split; [|split].
  - intros name headers initialRows s' evs. unfold createTable.
    destruct (user e); [|intros [= <- _]; left; reflexivity].
    destruct (decide (maxLength < _)%Z); [discriminate|].
    intros [= <- _]. right. eexists. repeat split.
  - intros t u comments Ht Hu Hp.
    destruct (confirmTable_success e s t u comments Ht Hu Hp)
      as (s' & evs & t' & H1 & H2 & H3 & _ & H4).
    exists s', evs, t'. auto.
  - apply versions_frame.
Qed.

Lemma version_only_changes_on_confirmTable_witness :
  (exists newTable,
     tables qcCreated = tables emptyState ++ [newTable] /\
     TableData.version newTable = 1%Z) /\
  (exists s' evs t',
     confirmTable (envOf qaUser 500) qcConfirmed None = Returns tt s' evs /\
     currentTable s' = Some t' /\
     TableData.version t' = 2%Z) /\
  TableData.version <$> tables qcEdited = TableData.version <$> tables qcCreated.
Proof.
  split; [|split].
  - destruct (proj1 (version_only_changes_on_confirmTable (envOf adminUser 100)
                       emptyState)
                "QC Run 1" ["Batch"; "Result"] (Some 2%Z) qcCreated
                (eventsOf (createTable (envOf adminUser 100) emptyState "QC Run 1"
                             ["Batch"; "Result"] (Some 2%Z))) eq_refl)
      as [Hs|(newTable & Ht & _ & Hv)].
    + apply (f_equal tables) in Hs. vm_compute in Hs. discriminate Hs.
    + exists newTable. split; assumption.
  - destruct (proj1 (proj2 (version_only_changes_on_confirmTable
                              (envOf qaUser 500) qcConfirmed))
                (with_rows (TableData.mk "table-1" "QC Run 1" ["Batch"; "Result"] []
                              false None None None 1%Z)
                           (match currentTable qcConfirmed with
                            | Some t => TableData.rows t
                            | None => []
                            end))
                qaUser None) as (s' & evs & t' & H1 & H2 & H3 & _);
      [vm_compute; reflexivity | reflexivity | reflexivity |].
    exists s', evs, t'. split; [exact H1|]. split; [exact H2|]. exact H3.
  - apply (proj2 (proj2 (version_only_changes_on_confirmTable (envOf dpUser 200)
                           qcCreated))
             (UpdateCell 0 1 fortyTwo) qcEdited
             (eventsOf (updateCell (envOf dpUser 200) qcCreated 0 1 fortyTwo)));
      [exact I | vm_compute; reflexivity].
Defined.

(** ** Structural consistency *)







(** A table is created with every row as long as its header list. *)
Lemma createTable_shape e s u name headers initialRows :
  user e = Some u ->
  (initialRowCount initialRows <= maxLength)%Z ->
  exists newTable evs,
    createTable e s name headers initialRows =
      Returns tt (mkState (tables s ++ [newTable]) (Some (uuid e))) evs /\
    TableData.headers newTable = headers /\
    length (TableData.rows newTable) = Z.to_nat (initialRowCount initialRows) /\
    rowsMatchHeaders newTable.
Proof.
  intros Hu Hn. unfold createTable. rewrite Hu.
  rewrite decide_False by lia. eexists _, _.
  split; [reflexivity|]. split; [reflexivity|]. split.
  - simpl. now rewrite length_fmap, length_replicate.
  - unfold rowsMatchHeaders. simpl. apply Forall_fmap, Forall_replicate. simpl.
    now rewrite length_fmap, length_imap, length_fmap.
Qed.







(** ** Exceptions *)







(** C4 (the code departs from it). On the two-row table of the scenario,
    [confirmCell(2, 0)] by a QA user and [setCellPermissions(2, 0, p)] by an
    admin throw a TypeError, and so does [updateCell(-1, 0, 42)]. *)
Theorem out_of_range_row_throws :
  confirmCell (envOf qaUser 700) qcCreated 2 0 None = Throws TypeError /\
  setCellPermissions (envOf adminUser 700) qcCreated 2 0
    (CellPermissions.mk ["qa_team"] true true) = Throws TypeError /\
  updateCell (envOf dpUser 700) qcCreated (-1) 0 fortyTwo = Throws TypeError.
Proof. vm_compute. repeat split. Qed.

(** ** CSV export *)

Section ExportFacts.

Variable numberToString : spec_float -> string.

(** A cell holding a string with a comma or a quote is printed between
    quotes, with every quote of the string doubled. *)
Lemma csvField_quoted cell s :
  Cell.value cell = VString s ->
  str_includes comma s || str_includes quote s = true ->
  joinText numberToString (csvField cell) = dq +:+ doubleQuotes s +:+ dq.
Proof. intros Hv Hq. unfold csvField. now rewrite Hv, Hq. Qed.

(** Any other string is printed as it is, and null as the empty string. *)
Lemma csvField_plain cell s :
  Cell.value cell = VString s ->
  str_includes comma s || str_includes quote s = false ->
  joinText numberToString (csvField cell) = s.
Proof. intros Hv Hq. unfold csvField. now rewrite Hv, Hq. Qed.

Lemma csvField_null cell :
  Cell.value cell = VNull -> joinText numberToString (csvField cell) = "".
Proof. intros Hv. unfold csvField. now rewrite Hv. Qed.

(** The header line is there exactly when the toggle is on, it is the
    header names joined verbatim, and the row lines follow in table order
    whatever the toggle. *)
Lemma csvContent_header_line t body :
  csvContent numberToString t false = Some body ->
  csvContent numberToString t true =
    Some ((String.concat "," (TableData.headers t) +:+ newline) +:+ body).
Proof.
  unfold csvContent. destruct (mapM _ _) as [lines|]; simpl; [|discriminate].
  now intros [= <-].
Qed.

(** C9 (the code departs from it). Exporting [commaTable] with the header
    toggle on writes the header [a,b] bare, so the header line reads as
    three fields, while the cell [x,y] of the first row is quoted. *)
Theorem export_leaves_header_commas_unquoted :
  handleExportCSV numberToString (Some commaTable) true =
    Exported "Commas_export.csv"
      ("a,b,c" +:+ newline +:+ dq +:+ "x,y" +:+ dq +:+ "," +:+ newline)
      [AddLog "export" "csv"
         [Lit "Exported table "; Lit dq; Lit "Commas"; Lit dq; Lit " to CSV"];
       Toast TSuccess [Lit "CSV export completed"]].
Proof. reflexivity. Qed.

End ExportFacts.

(** * Further properties *)

(** ** When an edit is accepted, and what it touches *)

(** The guards of [updateCell], passed one after the other, and the push
    loop, which completes when the row is there or its index is below the
    length cap. *)
Lemma updateCell_accepts e s rowIndex colIndex value :
  canEditCell e s rowIndex colIndex = true ->
  isConfirmed (cell_at (currentRows s) rowIndex colIndex) = false ->
  (0 <= rowIndex)%Z ->
  (rowIndex < maxLength)%Z \/ is_Some (rows_get (currentRows s) rowIndex) ->
  exists s' evs, updateCell e s rowIndex colIndex value = Returns true s' evs.
Proof.
  intros Hedit Hconf Hr Hcap. unfold updateCell. rewrite Hedit.
  unfold canEditCell in Hedit. unfold currentRows in Hconf, Hcap.
  destruct (currentTable s) as [t|] eqn:Ht; [|discriminate].
  destruct (user e) as [u|] eqn:Hu; [|discriminate].
  simpl. rewrite Hconf.
  destruct (pushRows (TableData.rows t) (length (TableData.headers t)) rowIndex)
    as [rows1|] eqn:Hpush.
  - destruct (rows_get_pushRows _ _ _ _ Hr Hpush) as [row Hrow].
    rewrite Hrow. eauto.
  - apply pushRows_None in Hpush as [Hnone Hge].
    destruct Hcap as [Hlt|[x Hx]]; [lia|congruence].
Qed.

Lemma updateCell_accepted e s rowIndex colIndex value s' evs :
  updateCell e s rowIndex colIndex value = Returns true s' evs ->
  canEditCell e s rowIndex colIndex = true /\
  isConfirmed (cell_at (currentRows s) rowIndex colIndex) = false /\
  (0 <= rowIndex)%Z /\
  ((rowIndex < maxLength)%Z \/ is_Some (rows_get (currentRows s) rowIndex)).
Proof.
  unfold updateCell, currentRows. intros H.
  destruct (currentTable s) as [t|] eqn:Ht; [|discriminate].
  destruct (user e) as [u|] eqn:Hu; [|discriminate].
  destruct (canEditCell e s rowIndex colIndex); simpl in H; [|discriminate].
  destruct (isConfirmed _); [discriminate|].
  destruct (pushRows _ _ _) as [rows1|] eqn:Hpush; [|discriminate].
  destruct (rows_get rows1 _) as [row|] eqn:Hrow; [|discriminate].
  apply rows_get_Some in Hrow as (Hr & _).
  repeat (split; [auto; fail|]).
  destruct (decide (rowIndex < maxLength)%Z) as [|Hge]; [now left|right].
  destruct (rows_get (TableData.rows t) rowIndex) eqn:E; [eauto|].
  assert (Hnone : pushRows (TableData.rows t) (length (TableData.headers t))
                    rowIndex = None) by (apply pushRows_None; split; [exact E|lia]).
  congruence.
Qed.

(** X1. On a table whose rows fit an array, [updateCell] returns true
    exactly when the row index is an array index (from 0 up to, not
    including, [maxLength]), [canEditCell] holds and the cell at the
    coordinate is not confirmed. *)
Theorem updateCell_succeeds_iff e s rowIndex colIndex value :
  (Z.of_nat (length (currentRows s)) <= maxLength)%Z ->
  (exists s' evs, updateCell e s rowIndex colIndex value = Returns true s' evs) <->
  canEditCell e s rowIndex colIndex = true /\
  isConfirmed (cell_at (currentRows s) rowIndex colIndex) = false /\
  (0 <= rowIndex < maxLength)%Z.
Proof.
  intros Hlen. split.
  - intros (s' & evs & H).
    destruct (updateCell_accepted _ _ _ _ _ _ _ H) as (H1 & H2 & H3 & H4).
    repeat (split; [assumption|]).
    destruct H4 as [H4|[row Hrow]]; [exact H4|].
    apply rows_get_Some in Hrow as (_ & _ & Hlt). lia.
  - intros (Hedit & Hconf & Hr). apply updateCell_accepts; auto; lia.
Qed.

Lemma updateCell_succeeds_iff_witness :
  exists s' evs,
    updateCell (envOf dpUser 200) qcCreated 0 1 fortyTwo = Returns true s' evs.
Proof.
  apply (proj2 (updateCell_succeeds_iff (envOf dpUser 200) qcCreated 0 1 fortyTwo
                  ltac:(vm_compute; discriminate))).
  split; [vm_compute; reflexivity|].
  split; [vm_compute; reflexivity|unfold maxLength; lia].
Defined.

Lemma row_get_freshRow_Some n j x : row_get (freshRow n) j = Some x -> x = emptyCell.
Proof.
  intros H. pose proof (row_get_freshRow n j) as Hd. rewrite H in Hd. exact Hd.
Qed.

Lemma cell_at_pushRows_inv rows n i rows' i' j' x :
  pushRows rows n i = Some rows' ->
  cell_at rows' i' j' = Some x ->
  cell_at rows i' j' = Some x \/ (cell_at rows i' j' = None /\ x = emptyCell).
Proof.
  unfold pushRows. destruct (rows_get rows i); [intros [= <-]; auto|].
  destruct (decide (maxLength <= i)%Z); [discriminate|]. intros [= <-].
  unfold cell_at.
  destruct (rows_get (rows ++ _) i') as [row|] eqn:E; [|discriminate].
  apply rows_get_Some in E as (Hi & E & _). rewrite ?rows_get_eq.
  destruct (decide (i' < 0)%Z); [lia|].
  apply lookup_app_Some in E as [E|[Hge E]].
  - rewrite E. auto.
  - apply lookup_replicate in E as [-> _]. intros H.
    rewrite (lookup_ge_None_2 rows) by exact Hge.
    right. split; [reflexivity|]. now apply row_get_freshRow_Some in H.
Qed.

Lemma length_pushRows rows n i rows' :
  (0 <= i)%Z ->
  pushRows rows n i = Some rows' ->
  length rows' = Nat.max (length rows) (S (Z.to_nat i)).
Proof.
  intros Hi. unfold pushRows. destruct (rows_get rows i) as [r|] eqn:E.
  - intros [= <-]. apply rows_get_Some in E as (_ & _ & Hlt). lia.
  - destruct (decide (maxLength <= i)%Z); [discriminate|]. intros [= <-].
    rewrite rows_get_eq in E. destruct (decide (i < 0)%Z); [lia|].
    apply lookup_ge_None in E. rewrite length_app, length_replicate. lia.
Qed.

(** The rows a successful edit installs. *)
Lemma updateCell_rows e s rowIndex colIndex value s' evs :
  updateCell e s rowIndex colIndex value = Returns true s' evs ->
  exists t u rows1 row,
    currentTable s = Some t /\ user e = Some u /\
    pushRows (TableData.rows t) (length (TableData.headers t)) rowIndex =
      Some rows1 /\
    rows_get rows1 rowIndex = Some row /\
    s' = mapCurrent s (fun table => with_rows table
           (<[Z.to_nat rowIndex :=
                row_set row colIndex
                  (editedCell (default emptyCell (row_get row colIndex)) value
                     (CellHistoryEntry.mk
                        (Cell.value (default emptyCell (row_get row colIndex)))
                        (now e) (User.id u)))]>
              rows1)).
Proof.
  unfold updateCell.
  destruct (currentTable s) as [t|] eqn:Ht; [|discriminate].
  destruct (user e) as [u|] eqn:Hu; [|discriminate].
  destruct (negb _); [discriminate|].
  destruct (isConfirmed _); [discriminate|].
  destruct (pushRows _ _ _) as [rows1|] eqn:Hpush; [|discriminate].
  destruct (rows_get rows1 _) as [row|] eqn:Hrow; [|discriminate].
  intros [= <- _]. exists t, u, rows1, row. auto.
Qed.

(** X2. A successful [updateCell] changes one cell: every other cell
    stored in the selected table reads the same afterwards, and a
    coordinate that held nothing holds nothing or, in a row the call
    pushed, an empty cell; name, headers, version and confirmation of the
    table are kept. *)
Theorem updateCell_changes_one_cell e s t rowIndex colIndex value s' evs :
  currentTable s = Some t ->
  updateCell e s rowIndex colIndex value = Returns true s' evs ->
  exists rows',
    currentTable s' = Some (with_rows t rows') /\
    forall r c, (r, c) <> (rowIndex, colIndex) ->
      match cell_at (TableData.rows t) r c with
      | Some cell => cell_at rows' r c = Some cell
      | None => cell_at rows' r c = None \/ cell_at rows' r c = Some emptyCell
      end.
Proof.
  intros Ht H.
  apply updateCell_rows in H as (t0 & u & rows1 & row & Ht0 & _ & Hpush & Hrow & ->).
  rewrite Ht in Ht0. injection Ht0 as <-.
  eexists. split; [apply (currentTable_with_rows s t); exact Ht|].
  intros r c Hne. rewrite cell_at_write_other by (auto; congruence).
  destruct (cell_at (TableData.rows t) r c) as [cell|] eqn:Hc.
  - now apply (cell_at_pushRows _ _ _ _ _ _ _ Hpush).
  - destruct (cell_at rows1 r c) as [x|] eqn:Hx; [|auto].
    apply (cell_at_pushRows_inv _ _ _ _ _ _ _ Hpush) in Hx as [Hx|[_ ->]];
      [congruence|auto].
Qed.

Lemma updateCell_changes_one_cell_witness :
  exists rows',
    currentTable qcEdited = Some (with_rows (selectedOr plainTable qcCreated) rows') /\
    forall r c, (r, c) <> (0, 1)%Z ->
      match cell_at (TableData.rows (selectedOr plainTable qcCreated)) r c with
      | Some cell => cell_at rows' r c = Some cell
      | None => cell_at rows' r c = None \/ cell_at rows' r c = Some emptyCell
      end.
Proof.
  apply (updateCell_changes_one_cell (envOf dpUser 200) qcCreated
           (selectedOr plainTable qcCreated) 0 1 fortyTwo qcEdited
           (eventsOf (updateCell (envOf dpUser 200) qcCreated 0 1 fortyTwo)));
    vm_compute; reflexivity.
Defined.

(** X3. Sparse extension: after a successful [updateCell] at row
    [rowIndex] the table has max(rows, rowIndex + 1) rows under the same
    headers, and every row pushed before the target is a fresh row of
    header-count empty cells. *)
Theorem updateCell_sparse_extension e s t rowIndex colIndex value s' evs :
  currentTable s = Some t ->
  updateCell e s rowIndex colIndex value = Returns true s' evs ->
  exists t',
    currentTable s' = Some t' /\
    TableData.headers t' = TableData.headers t /\
    length (TableData.rows t') =
      Nat.max (length (TableData.rows t)) (S (Z.to_nat rowIndex)) /\
    forall k, length (TableData.rows t) <= k -> k < Z.to_nat rowIndex ->
      TableData.rows t' !! k = Some (freshRow (length (TableData.headers t))).
Proof.
  intros Ht H.
  apply updateCell_rows in H as (t0 & u & rows1 & row & Ht0 & _ & Hpush & Hrow & ->).
  rewrite Ht in Ht0. injection Ht0 as <-.
  destruct (rows_get_Some _ _ _ Hrow) as (Hr & _ & _).
  eexists. split; [apply (currentTable_with_rows s t); exact Ht|]. simpl.
  split; [reflexivity|]. split.
  - rewrite length_insert. now apply (length_pushRows _ _ _ _ Hr Hpush).
  - intros k Hk1 Hk2. rewrite list_lookup_insert_ne by lia.
    unfold pushRows in Hpush.
    destruct (rows_get (TableData.rows t) rowIndex) as [r0|] eqn:E.
    + apply rows_get_Some in E as (_ & _ & Hlt). lia.
    + destruct (decide (maxLength <= rowIndex)%Z); [discriminate|].
      injection Hpush as <-.
      rewrite lookup_app_r by exact Hk1. apply lookup_replicate_2. lia.
Qed.

Lemma updateCell_sparse_extension_witness :
  exists t',
    currentTable qcSparse = Some t' /\
    TableData.headers t' = TableData.headers (selectedOr plainTable qcCreated) /\
    length (TableData.rows t') =
      Nat.max (length (TableData.rows (selectedOr plainTable qcCreated)))
              (S (Z.to_nat 3)) /\
    forall k,
      length (TableData.rows (selectedOr plainTable qcCreated)) <= k ->
      k < Z.to_nat 3 ->
      TableData.rows t' !! k =
        Some (freshRow (length (TableData.headers (selectedOr plainTable qcCreated)))).
Proof.
  apply (updateCell_sparse_extension (envOf dpUser 600) qcCreated
           (selectedOr plainTable qcCreated) 3 1 fortyTwo qcSparse
           (eventsOf (updateCell (envOf dpUser 600) qcCreated 3 1 fortyTwo)));
    vm_compute; reflexivity.
Defined.

Lemma canEditCell_missing e s t u rowIndex colIndex :
  currentTable s = Some t -> user e = Some u ->
  cell_at (TableData.rows t) rowIndex colIndex = None ->
  canEditCell e s rowIndex colIndex = true.
Proof.
  intros Ht Hu Hc. unfold canEditCell. rewrite Ht, Hu, Hc.
  now destruct (is_admin _).
Qed.

(** X4. Where no cell is stored, [updateCell] succeeds for every signed-in
    user whatever the role, at every row index that is an array index
    (from 0 up to, not including, [maxLength]), and the cell it creates
    carries the value, no permissions record, no confirmation and one
    history entry recording null. *)
Theorem updateCell_creates_cell_for_any_role e s t u rowIndex colIndex value :
  currentTable s = Some t -> user e = Some u ->
  cell_at (TableData.rows t) rowIndex colIndex = None ->
  (0 <= rowIndex < maxLength)%Z ->
  exists s' evs t',
    updateCell e s rowIndex colIndex value = Returns true s' evs /\
    currentTable s' = Some t' /\
    cell_at (TableData.rows t') rowIndex colIndex =
      Some (Cell.mk value false None None None None
              [CellHistoryEntry.mk VNull (now e) (User.id u)]).
Proof.
  intros Ht Hu Hc Hr.
  destruct (updateCell_accepts e s rowIndex colIndex value) as (s' & evs & H).
  { now apply (canEditCell_missing e s t u). }
  { unfold currentRows. now rewrite Ht, Hc. }
  { lia. }
  { left. lia. }
  exists s', evs. pose proof H as H'.
  apply updateCell_success in H' as (t0 & u0 & rows' & Ht0 & Hu0 & Ht' & Hcell).
  exists (with_rows t0 rows'). split; [exact H|]. split; [exact Ht'|].
  simpl. rewrite Hcell. unfold cellOrEmpty. rewrite Ht, Hc. simpl.
  rewrite Hu in Hu0. now injection Hu0 as <-.
Qed.

Lemma updateCell_creates_cell_for_any_role_witness :
  exists s' evs t',
    updateCell (envOf viewerUser 600) qcCreated 0 5 fortyTwo = Returns true s' evs /\
    currentTable s' = Some t' /\
    cell_at (TableData.rows t') 0 5 =
      Some (Cell.mk fortyTwo false None None None None
              [CellHistoryEntry.mk VNull (now (envOf viewerUser 600))
                 (User.id viewerUser)]).
Proof.
  apply (updateCell_creates_cell_for_any_role (envOf viewerUser 600) qcCreated
           (selectedOr plainTable qcCreated) viewerUser 0 5 fortyTwo);
    [vm_compute; reflexivity | reflexivity | vm_compute; reflexivity
    | unfold maxLength; lia].
Defined.

(** ** Confirmation and permissions *)

Lemma canEditCell_same_rows e s s' t t' :
  currentTable s = Some t -> currentTable s' = Some t' ->
  TableData.rows t' = TableData.rows t ->
  forall r c, canEditCell e s' r c = canEditCell e s r c.
Proof.
  intros Ht Ht' Hrows r c. unfold canEditCell. now rewrite Ht, Ht', Hrows.
Qed.

(** X5. Table confirmation locks nothing: after a [confirmTable] that
    marks the selected table confirmed, [updateCell] is accepted at
    exactly the coordinates, for exactly the users, for which it was
    accepted before. *)
Theorem confirmTable_does_not_lock e s t u comments :
  currentTable s = Some t -> user e = Some u ->
  includes (User.permissions u) "confirm_data" = true ->
  exists s' evs t',
    confirmTable e s comments = Returns tt s' evs /\
    currentTable s' = Some t' /\
    TableData.confirmed t' = true /\
    forall e2 r c v,
      (exists s2 evs2, updateCell e2 s' r c v = Returns true s2 evs2) <->
      (exists s2 evs2, updateCell e2 s r c v = Returns true s2 evs2).
Proof.
  intros Ht Hu Hp. unfold confirmTable. rewrite Ht, Hu, Hp. simpl.
  set (updated := TableData.mk (TableData.id t) (TableData.name t)
                    (TableData.headers t) (TableData.rows t) true
                    (Some (User.id u)) (Some (now e)) comments
                    (TableData.version t + 1)%Z).
  assert (Hcur : currentTable (mapCurrent s (fun _ => updated)) = Some updated).
  { apply (currentTable_mapCurrent s t (fun _ => updated)); [|exact Ht].
    intros t0 _. exact (is_current_selected s t Ht). }
  eexists _, _, updated. split; [reflexivity|].
  split; [exact Hcur|]. split; [reflexivity|].
  assert (Hrows : currentRows (mapCurrent s (fun _ => updated)) = currentRows s)
    by (unfold currentRows; now rewrite Hcur, Ht).
  intros e2 r c v. split; intros (s2 & evs2 & H);
    apply updateCell_accepted in H as (H1 & H2 & H3 & H4);
    apply updateCell_accepts; try exact H3.
  - now rewrite <- (canEditCell_same_rows e2 s _ t updated Ht Hcur eq_refl).
  - now rewrite <- Hrows.
  - now rewrite <- Hrows.
  - now rewrite (canEditCell_same_rows e2 s _ t updated Ht Hcur eq_refl).
  - now rewrite Hrows.
  - now rewrite Hrows.
Qed.

Lemma confirmTable_does_not_lock_witness :
  exists s' evs t',
    confirmTable (envOf qaUser 500) qcEdited None = Returns tt s' evs /\
    currentTable s' = Some t' /\
    TableData.confirmed t' = true /\
    forall e2 r c v,
      (exists s2 evs2, updateCell e2 s' r c v = Returns true s2 evs2) <->
      (exists s2 evs2, updateCell e2 qcEdited r c v = Returns true s2 evs2).
Proof.
  apply (confirmTable_does_not_lock (envOf qaUser 500) qcEdited
           (selectedOr plainTable qcEdited) qaUser None);
    [vm_compute; reflexivity | reflexivity | reflexivity].
Defined.

(** X6. [confirmCell] declines without touching the state in three ways:
    silently when no table is selected or nobody is signed in; with the
    permission toast when the actor lacks [confirm_data]; and silently
    again, with neither toast nor audit record, when the row exists but
    holds no cell at the column. *)
Theorem confirmCell_rejections e s rowIndex colIndex comments :
  (currentTable s = None \/ user e = None ->
     confirmCell e s rowIndex colIndex comments = Returns tt s []) /\
  (forall t u,
     currentTable s = Some t -> user e = Some u ->
     includes (User.permissions u) "confirm_data" = false ->
     confirmCell e s rowIndex colIndex comments = Returns tt s [confirmToast]) /\
  (forall t u row,
     currentTable s = Some t -> user e = Some u ->
     includes (User.permissions u) "confirm_data" = true ->
     rows_get (TableData.rows t) rowIndex = Some row ->
     row_get row colIndex = None ->
     confirmCell e s rowIndex colIndex comments = Returns tt s []).
Proof.
  unfold confirmCell. repeat split.
  - intros [H|H]; rewrite H; [reflexivity|]. destruct (currentTable s); reflexivity.
  - intros t u Ht Hu Hp. now rewrite Ht, Hu, Hp.
  - intros t u row Ht Hu Hp Hrow Hcell. now rewrite Ht, Hu, Hp, Hrow, Hcell.
Qed.

Lemma confirmCell_rejections_witness :
  confirmCell signedOut qcCreated 0 1 None = Returns tt qcCreated [] /\
  confirmCell (envOf viewerUser 300) qcCreated 0 1 None =
    Returns tt qcCreated [confirmToast] /\
  confirmCell (envOf qaUser 300) qcCreated 0 7 None = Returns tt qcCreated [].
Proof.
  split; [|split].
  - apply (confirmCell_rejections signedOut qcCreated 0 1 None). right. reflexivity.
  - eapply (proj1 (proj2 (confirmCell_rejections (envOf viewerUser 300)
                            qcCreated 0 1 None)));
      [vm_compute; reflexivity | reflexivity | reflexivity].
  - eapply (proj2 (proj2 (confirmCell_rejections (envOf qaUser 300)
                            qcCreated 0 7 None)));
      [vm_compute; reflexivity | reflexivity | reflexivity
      | vm_compute; reflexivity | vm_compute; reflexivity].
Defined.

(** The two checks on a stored cell, for a user who is not an admin. *)
Lemma canCheck_stored e s t u rowIndex colIndex cell :
  currentTable s = Some t -> user e = Some u ->
  User.role u <> admin ->
  cell_at (TableData.rows t) rowIndex colIndex = Some cell ->
  canEditCell e s rowIndex colIndex =
    match Cell.permissions cell with
    | Some p => includes (CellPermissions.roles p) (role_name (User.role u))
                && CellPermissions.editable p
    | None => is_dp_team (User.role u)
    end /\
  canViewCell e s rowIndex colIndex =
    match Cell.permissions cell with
    | Some p => includes (CellPermissions.roles p) (role_name (User.role u))
                && CellPermissions.viewable p
    | None => true
    end.
Proof.
  intros Ht Hu Hr Hc. unfold canEditCell, canViewCell. rewrite Ht, Hu, Hc.
  destruct (is_admin (User.role u)) eqn:E; [apply is_admin_true in E; contradiction|].
  split; reflexivity.
Qed.

(** What [setCellPermissions] installs for an admin, and how the checks
    read it afterwards. *)
Lemma setCellPermissions_admin e s t u rowIndex colIndex p cell :
  currentTable s = Some t -> user e = Some u -> User.role u = admin ->
  cell_at (TableData.rows t) rowIndex colIndex = Some cell ->
  exists s' evs t',
    setCellPermissions e s rowIndex colIndex p = Returns tt s' evs /\
    currentTable s' = Some t' /\
    cell_at (TableData.rows t') rowIndex colIndex = Some (with_permissions cell p) /\
    forall e2 u2, user e2 = Some u2 -> User.role u2 <> admin ->
      canEditCell e2 s' rowIndex colIndex =
        includes (CellPermissions.roles p) (role_name (User.role u2))
        && CellPermissions.editable p /\
      canViewCell e2 s' rowIndex colIndex =
        includes (CellPermissions.roles p) (role_name (User.role u2))
        && CellPermissions.viewable p.
Proof.
  intros Ht Hu Hr Hc. unfold setCellPermissions. rewrite Ht, Hu, Hr. simpl.
  unfold cell_at in Hc.
  destruct (rows_get (TableData.rows t) rowIndex) as [row|] eqn:Hrow; [|discriminate].
  rewrite Hc. eexists _, _, _. split; [reflexivity|].
  split; [apply (currentTable_with_rows s t); exact Ht|].
  simpl. split; [now apply cell_at_insert|].
  intros e2 u2 Hu2 Hr2.
  eapply (canCheck_stored e2 _ _ u2 rowIndex colIndex (with_permissions cell p));
    [apply (currentTable_with_rows s t); exact Ht | exact Hu2 | exact Hr2 |].
  simpl. now apply cell_at_insert.
Qed.

(** X7. [setCellPermissions] on a stored cell: a caller who is not an
    admin gets the admin toast and no change; an admin replaces the
    permissions record wholesale, keeping value, confirmation and history,
    and from then on [canEditCell] and [canViewCell] answer, for every
    user who is not an admin, membership of the role in the new list and
    the new flag. *)
Theorem setCellPermissions_replaces_record e s t u rowIndex colIndex p cell :
  currentTable s = Some t -> user e = Some u ->
  cell_at (TableData.rows t) rowIndex colIndex = Some cell ->
  (User.role u <> admin ->
     setCellPermissions e s rowIndex colIndex p = Returns tt s [adminToast]) /\
  (User.role u = admin ->
     exists s' evs t',
       setCellPermissions e s rowIndex colIndex p = Returns tt s' evs /\
       currentTable s' = Some t' /\
       cell_at (TableData.rows t') rowIndex colIndex = Some (with_permissions cell p) /\
       forall e2 u2, user e2 = Some u2 -> User.role u2 <> admin ->
         canEditCell e2 s' rowIndex colIndex =
           includes (CellPermissions.roles p) (role_name (User.role u2))
           && CellPermissions.editable p /\
         canViewCell e2 s' rowIndex colIndex =
           includes (CellPermissions.roles p) (role_name (User.role u2))
           && CellPermissions.viewable p).
Proof.
  intros Ht Hu Hc. split.
  - intros Hr. unfold setCellPermissions. rewrite Ht, Hu.
    destruct (is_admin (User.role u)) eqn:E; [|reflexivity].
    apply is_admin_true in E. contradiction.
  - intros Hr. now apply (setCellPermissions_admin e s t u).
Qed.

Lemma setCellPermissions_replaces_record_witness :
  setCellPermissions (envOf dpUser 350) qcEdited 0 1 qaOnly =
    Returns tt qcEdited [adminToast] /\
  exists s' evs t',
    setCellPermissions (envOf adminUser 350) qcEdited 0 1 qaOnly = Returns tt s' evs /\
    currentTable s' = Some t' /\
    cell_at (TableData.rows t') 0 1 =
      Some (with_permissions (cellOrEmpty qcEdited 0 1) qaOnly) /\
    forall e2 u2, user e2 = Some u2 -> User.role u2 <> admin ->
      canEditCell e2 s' 0 1 =
        includes (CellPermissions.roles qaOnly) (role_name (User.role u2))
        && CellPermissions.editable qaOnly /\
      canViewCell e2 s' 0 1 =
        includes (CellPermissions.roles qaOnly) (role_name (User.role u2))
        && CellPermissions.viewable qaOnly.
Proof.
  split.
  - apply (proj1 (setCellPermissions_replaces_record (envOf dpUser 350) qcEdited
                    (selectedOr plainTable qcEdited) dpUser 0 1 qaOnly
                    (cellOrEmpty qcEdited 0 1) eq_refl eq_refl eq_refl)).
    discriminate.
  - apply (proj2 (setCellPermissions_replaces_record (envOf adminUser 350) qcEdited
                    (selectedOr plainTable qcEdited) adminUser 0 1 qaOnly
                    (cellOrEmpty qcEdited 0 1) eq_refl eq_refl eq_refl)).
    reflexivity.
Defined.

(** ** Tables, selection and the signed-out case *)

(** The state a request installs, when it is not a creation: the tables it
    started from (possibly under another selection), or those tables with
    the ones of the selected id rewritten by a function that keeps the
    id. *)
Lemma run_shape e s op s' evs :
  match op with CreateTable _ _ _ => False | _ => True end ->
  run e s op = Some (s', evs) ->
  tables s' = tables s \/
  exists f, (forall x, is_current s x = true -> TableData.id (f x) = TableData.id x) /\
            s' = mapCurrent s f.
Proof.
  intros Hop Hrun.
  assert (Hk : keepsSelection op \/ exists i, op = SelectTable i)
    by (destruct op; simpl; eauto; contradiction).
  destruct Hk as [Hk|[i ->]].
  - destruct (run_keeps_selection e s op s' evs Hk Hrun) as [->|H];
      [now left|now right].
  - simpl in Hrun. unfold selectTable in Hrun.
    destruct (findTable _ _); injection Hrun as <- _; auto.
Qed.

(** X8. No request deletes, reorders or re-identifies a table: the ids
    before are a prefix of the ids after.  A request other than a creation
    keeps the ids as they are and leaves every table whose id is not the
    selected one exactly as it was. *)
Theorem other_tables_untouched e s op s' evs :
  run e s op = Some (s', evs) ->
  TableData.id <$> tables s `prefix_of` TableData.id <$> tables s' /\
  (match op with CreateTable _ _ _ => False | _ => True end ->
   TableData.id <$> tables s' = TableData.id <$> tables s /\
   forall k x, tables s !! k = Some x -> is_current s x = false ->
               tables s' !! k = Some x).
Proof.
  intros Hrun.
  assert (Hnc : match op with CreateTable _ _ _ => False | _ => True end ->
             TableData.id <$> tables s' = TableData.id <$> tables s /\
             forall k x, tables s !! k = Some x -> is_current s x = false ->
                         tables s' !! k = Some x).
  { intros Hop. destruct (run_shape e s op s' evs Hop Hrun) as [->|(f & Hf & ->)].
    - split; [reflexivity|auto].
    - unfold mapCurrent. simpl. split.
      + rewrite <- list_fmap_compose. apply list_fmap_ext.
        intros k x _. simpl. destruct (is_current s x) eqn:E; [now apply Hf|reflexivity].
      + intros k x Hk Hx. rewrite list_lookup_fmap, Hk. simpl. now rewrite Hx. }
  split; [|exact Hnc].
  destruct op as [n hs k|i|r c v|r c cm|cm| | |h|r c p];
    try (rewrite (proj1 (Hnc I)); reflexivity).
  simpl in Hrun. unfold createTable in Hrun.
  destruct (user e); [|injection Hrun as <- _; reflexivity].
  destruct (decide (maxLength < _)%Z); [discriminate|].
  injection Hrun as <- _.
  simpl. rewrite fmap_app. now apply prefix_app_r.
Qed.

Lemma other_tables_untouched_witness :
  TableData.id <$> tables twoTables `prefix_of` TableData.id <$> tables twoTablesEdited /\
  TableData.id <$> tables twoTablesEdited = TableData.id <$> tables twoTables /\
  forall k x, tables twoTables !! k = Some x -> is_current twoTables x = false ->
              tables twoTablesEdited !! k = Some x.
Proof.
  destruct (other_tables_untouched (secondEnv dpUser 160) twoTables
              (UpdateCell 0 0 ninetyNine) twoTablesEdited
              (eventsOf (updateCell (secondEnv dpUser 160) twoTables 0 0 ninetyNine)))
    as [H1 H2]; [vm_compute; reflexivity|].
  split; [exact H1|exact (H2 I)].
Defined.

(** X9. With nobody signed in, every request except [selectTable]
    completes and installs the state it started from. *)
Theorem signed_out_changes_nothing e s op :
  user e = None ->
  match op with SelectTable _ => False | _ => True end ->
  exists evs, run e s op = Some (s, evs).
Proof.
  intros Hu Hop.
  destruct op as [n hs k|i|r c v|r c cm|cm| | |h|r c p]; simpl; try contradiction.
  - unfold createTable. rewrite Hu. eauto.
  - unfold updateCell. rewrite Hu. destruct (currentTable s); eauto.
  - unfold confirmCell. rewrite Hu. destruct (currentTable s); eauto.
  - unfold confirmTable. rewrite Hu. destruct (currentTable s); eauto.
  - unfold exportTableToPDF. destruct (currentTable s); eauto.
  - unfold addRow. rewrite Hu. destruct (currentTable s); eauto.
  - unfold addColumn. rewrite Hu. destruct (currentTable s); eauto.
  - unfold setCellPermissions. rewrite Hu. destruct (currentTable s); eauto.
Qed.

Lemma signed_out_changes_nothing_witness :
  exists evs, run signedOut qcCreated (AddColumn "Note") = Some (qcCreated, evs).
Proof.
  apply (signed_out_changes_nothing signedOut qcCreated (AddColumn "Note"));
    [reflexivity | exact I].
Defined.

Lemma findTable_app_fresh ts x i :
  findTable ts i = None -> TableData.id x = i -> findTable (ts ++ [x]) i = Some x.
Proof.
  unfold findTable. intros H <-. induction ts as [|a ts IH]; simpl in *.
  - now rewrite String.eqb_refl.
  - destruct (String.eqb (TableData.id a) (TableData.id x)); [discriminate|auto].
Qed.

(** A creation that returns was not asked for more rows than an array
    holds. *)
Lemma createTable_returns e s u name headers initialRows s' evs :
  user e = Some u ->
  createTable e s name headers initialRows = Returns tt s' evs ->
  (initialRowCount initialRows <= maxLength)%Z.
Proof.
  intros Hu. unfold createTable. rewrite Hu.
  destruct (decide (maxLength < _)%Z); [discriminate|]. lia.
Qed.

(** What [createTable] installs when the drawn id is not yet in use. *)
Lemma createTable_fresh e s u name headers initialRows :
  user e = Some u ->
  findTable (tables s) (uuid e) = None ->
  (initialRowCount initialRows <= maxLength)%Z ->
  exists s' evs newTable,
    createTable e s name headers initialRows = Returns tt s' evs /\
    tables s' = tables s ++ [newTable] /\
    currentTable s' = Some newTable /\
    TableData.id newTable = uuid e /\
    TableData.name newTable = name /\
    TableData.headers newTable = headers /\
    TableData.confirmed newTable = false /\
    length (TableData.rows newTable) = Z.to_nat (initialRowCount initialRows) /\
    forall r c,
      (0 <= r < initialRowCount initialRows)%Z ->
      (0 <= c < Z.of_nat (length headers))%Z ->
      cell_at (TableData.rows newTable) r c =
        Some (with_permissions emptyCell (seedPermissions (Z.to_nat c))).
Proof.
  intros Hu Hfresh Hn. unfold createTable. rewrite Hu.
  rewrite decide_False by lia. eexists _, _, _.
  split; [reflexivity|]. split; [reflexivity|].
  split; [unfold currentTable; simpl; now apply findTable_app_fresh|].
  repeat (split; [reflexivity|]). cbn [TableData.rows]. split.
  - now rewrite length_fmap, length_replicate.
  - intros r c Hr Hc. unfold cell_at; rewrite ?rows_get_eq.
    destruct (decide (r < 0)%Z); [lia|].
    rewrite list_lookup_fmap, lookup_replicate_2 by lia.
    cbn [fmap option_fmap option_map].
    rewrite row_get_position
      by (cbn [Row.elems]; rewrite length_fmap, length_imap, length_fmap; lia).
    cbn [Row.elems].
    rewrite list_lookup_fmap, list_lookup_imap, list_lookup_fmap.
    destruct (headers !! Z.to_nat c) as [h|] eqn:Eh; [reflexivity|].
    apply lookup_ge_None in Eh. lia.
Qed.

Lemma admin_checks e s t u rowIndex colIndex :
  currentTable s = Some t -> user e = Some u -> User.role u = admin ->
  canEditCell e s rowIndex colIndex = true /\ canViewCell e s rowIndex colIndex = true.
Proof.
  intros Ht Hu Hr. unfold canViewCell, canEditCell. now rewrite Ht, Hu, Hr.
Qed.

(** X10. In a table just created (under an id not in use), at every
    coordinate of the grid, what a user may view and edit is decided by the
    role and the column modulo 3 alone: admin everything; dp_team views and
    edits all but columns 2, 5, 8, ...; qa_team views all but columns
    0, 3, 6, ... and edits columns 1, 4, 7, ... only; viewer sees and edits
    nothing. *)
Theorem fresh_table_permissions e s u name headers initialRows s' evs :
  user e = Some u ->
  findTable (tables s) (uuid e) = None ->
  createTable e s name headers initialRows = Returns tt s' evs ->
  forall e2 u2 r c,
    user e2 = Some u2 ->
    (0 <= r < initialRowCount initialRows)%Z ->
    (0 <= c < Z.of_nat (length headers))%Z ->
    canViewCell e2 s' r c = seedMayView (User.role u2) (Z.to_nat c) /\
    canEditCell e2 s' r c = seedMayEdit (User.role u2) (Z.to_nat c).
Proof.
  intros Hu Hfresh Hrun e2 u2 r c Hu2 Hr Hc.
  destruct (createTable_fresh e s u name headers initialRows Hu Hfresh
              (createTable_returns e s u name headers initialRows s' evs Hu Hrun))
    as (s1 & evs1 & newTable & Hrun1 & _ & Hcur & _ & _ & _ & _ & _ & Hcells).
  rewrite Hrun in Hrun1. injection Hrun1 as <- _.
  specialize (Hcells r c Hr Hc).
  destruct (is_admin (User.role u2)) eqn:Ea;
    [apply is_admin_true in Ea as Ha
    |assert (Ha : User.role u2 <> admin)
       by (intros Ha; apply is_admin_true in Ha; congruence)].
  - destruct (admin_checks e2 s' newTable u2 r c Hcur Hu2 Ha) as [He Hv].
    rewrite He, Hv, Ha. auto.
  - destruct (canCheck_stored e2 s' newTable u2 r c _ Hcur Hu2 Ha Hcells) as [-> ->].
    simpl. unfold seedPermissions, seedMayView, seedMayEdit.
    pose proof (Nat.mod_upper_bound (Z.to_nat c) 3) as Hm.
    destruct (Z.to_nat c mod 3) as [|[|[|m]]]; [| | |lia];
      destruct (User.role u2); try contradiction; split; reflexivity.
Qed.

Lemma fresh_table_permissions_witness :
  canViewCell (envOf viewerUser 200) qcCreated 1 1 =
    seedMayView (User.role viewerUser) (Z.to_nat 1) /\
  canEditCell (envOf viewerUser 200) qcCreated 1 1 =
    seedMayEdit (User.role viewerUser) (Z.to_nat 1).
Proof.
  apply (fresh_table_permissions (envOf adminUser 100) emptyState adminUser
           "QC Run 1" ["Batch"; "Result"] (Some 2%Z) qcCreated
           (eventsOf (createTable (envOf adminUser 100) emptyState "QC Run 1"
                        ["Batch"; "Result"] (Some 2%Z)))
           eq_refl eq_refl eq_refl (envOf viewerUser 200) viewerUser 1%Z 1%Z);
    vm_compute; intuition congruence.
Defined.

(** X11. Creating a table does not lose the earlier ones: after
    [createTable], selecting a table that existed before by its id makes
    that very table, unchanged, the selected one. *)
Theorem select_returns_to_table e s i t name headers initialRows s1 evs1 :
  findTable (tables s) i = Some t ->
  createTable e s name headers initialRows = Returns tt s1 evs1 ->
  exists s2 evs2,
    selectTable s1 i = Returns tt s2 evs2 /\
    tables s2 = tables s1 /\
    currentTable s2 = Some t.
Proof.
  intros Hfind Hcreate.
  assert (H1 : findTable (tables s1) i = Some t).
  { unfold createTable in Hcreate.
    destruct (user e); [|injection Hcreate as <- _; exact Hfind].
    destruct (decide (maxLength < _)%Z); [discriminate|].
    injection Hcreate as <- _. simpl. now apply findTable_snoc. }
  unfold selectTable. rewrite H1. eexists _, _. split; [reflexivity|].
  split; [reflexivity|]. exact H1.
Qed.

Lemma select_returns_to_table_witness :
  exists s2 evs2,
    selectTable twoTables "table-1" = Returns tt s2 evs2 /\
    tables s2 = tables twoTables /\
    currentTable s2 = Some (selectedOr plainTable qcCreated).
Proof.
  apply (select_returns_to_table (secondEnv adminUser 150) qcCreated "table-1"
           (selectedOr plainTable qcCreated) "Second" ["X"] (Some 1%Z) twoTables
           (eventsOf (createTable (secondEnv adminUser 150) qcCreated "Second" ["X"]
                        (Some 1%Z))));
    vm_compute; reflexivity.
Defined.

(** ** Growing the table *)





(** ** Audit trail *)

(** X14. Reading back after [addLog]: the records of a user, queried by
    id, are those from before followed by the new record when the id is
    the signed-in user's, and exactly those from before otherwise; the new
    record carries the user's id, name and role, the action, resource and
    details given, and the address 127.0.0.1. *)
Theorem getLogsByUser_after_addLog u logId time logs actionType resource details uid :
  getLogsByUser (addLog (Some u) logId time logs actionType resource details) uid =
    if String.eqb (User.id u) uid
    then getLogsByUser logs uid ++
         [AuditLogEntry.mk logId (User.id u) (User.name u) (role_name (User.role u))
            actionType resource details time "127.0.0.1"]
    else getLogsByUser logs uid.
Proof.
  unfold getLogsByUser, addLog. rewrite List.filter_app. simpl.
  destruct (String.eqb (User.id u) uid); [reflexivity|apply app_nil_r].
Qed.

Lemma one_audit_record_per_request e s op s' evs :
  run e s op = Some (s', evs) -> length (auditCalls evs) <= 1.
Proof.
  destruct op as [n hs k|i|r c v|r c cm|cm| | |h|r c p]; simpl.
  - unfold createTable. destruct (user e); [|intros [= _ <-]; simpl; lia].
    destruct (decide (maxLength < _)%Z); [discriminate|].
    intros [= _ <-]; simpl; lia.
  - unfold selectTable. destruct (findTable _ _); intros [= _ <-]; simpl; lia.
  - unfold updateCell.
    destruct (currentTable s), (user e); try (intros [= _ <-]; simpl; lia).
    destruct (negb _); [intros [= _ <-]; simpl; lia|].
    destruct (isConfirmed _); [intros [= _ <-]; simpl; lia|].
    destruct (pushRows _ _ _); [|discriminate].
    destruct (rows_get _ _); [|discriminate]. intros [= _ <-]; simpl; lia.
  - unfold confirmCell.
    destruct (currentTable s), (user e); try (intros [= _ <-]; simpl; lia).
    destruct (negb _); [intros [= _ <-]; simpl; lia|].
    destruct (rows_get _ _); [|discriminate].
    destruct (row_get _ _); intros [= _ <-]; simpl; lia.
  - unfold confirmTable.
    destruct (currentTable s), (user e); try (intros [= _ <-]; simpl; lia).
    destruct (negb _); intros [= _ <-]; simpl; lia.
  - unfold exportTableToPDF. destruct (currentTable s); intros [= _ <-]; simpl; lia.
  - unfold addRow. destruct (currentTable s), (user e); intros [= _ <-]; simpl; lia.
  - unfold addColumn. destruct (currentTable s), (user e); intros [= _ <-]; simpl; lia.
  - unfold setCellPermissions.
    destruct (currentTable s), (user e); try (intros [= _ <-]; simpl; lia).
    destruct (negb _); [intros [= _ <-]; simpl; lia|].
    destruct (rows_get _ _); [|discriminate].
    destruct (row_get _ _); intros [= _ <-]; simpl; lia.
Qed.

Lemma auditAfter_prefix u logId time evs : forall logs,
  logs `prefix_of` auditAfter u logId time logs evs /\
  length (auditAfter u logId time logs evs) =
    length logs + (match u with Some _ => length (auditCalls evs) | None => 0 end) /\
  forall entry, entry ∈ drop (length logs) (auditAfter u logId time logs evs) ->
    exists user a r d,
      u = Some user /\ AddLog a r d ∈ evs /\
      entry = AuditLogEntry.mk logId (User.id user) (User.name user)
                (role_name (User.role user)) a r d time "127.0.0.1".
Proof.
  induction evs as [|ev evs IH]; intros logs; simpl.
  - split; [reflexivity|]. split; [destruct u; lia|].
    rewrite drop_all. intros entry H. inversion H.
  - destruct ev as [k msg|a r d]; simpl.
    { destruct (IH logs) as (Hp & Hl & He). split; [exact Hp|]. split; [exact Hl|].
      intros entry Hin. destruct (He entry Hin) as (user & a & r & d & H1 & H2 & H3).
      exists user, a, r, d. split; [exact H1|]. split; [now right|exact H3]. }
    destruct (IH (addLog u logId time logs a r d)) as (Hp & Hl & He).
    unfold addLog in *. destruct u as [user|].
    + split; [|split].
      * etransitivity; [|exact Hp]. now apply prefix_app_r.
      * rewrite Hl, length_app. simpl. lia.
      * intros entry Hin. destruct Hp as [rest Hrest]. rewrite Hrest in Hin.
        rewrite <- app_assoc, drop_app_length in Hin.
        apply elem_of_cons in Hin as [->|Hin].
        -- exists user, a, r, d. split; [reflexivity|]. split; [now left|reflexivity].
        -- destruct (He entry) as (user' & a' & r' & d' & H1 & H2 & H3).
           { rewrite Hrest, drop_app_length. exact Hin. }
           exists user', a', r', d'. split; [exact H1|]. split; [now right|exact H3].
    + split; [exact Hp|]. split; [exact Hl|].
      intros entry Hin. destruct (He entry Hin) as (user & _ & _ & _ & H1 & _).
      discriminate.
Qed.

(** X15. The audit trail under the store: a request that completes only
    appends to the trail, by at most one record; it appends nothing when
    nobody is signed in (so the [addLog] of [selectTable] and of
    [exportTableToPDF] is lost then); and a record it appends is stamped
    with the id, name and role of the signed-in user. *)
Theorem store_audit_trail e s op s' evs logId time logs :
  run e s op = Some (s', evs) ->
  logs `prefix_of` auditAfter (user e) logId time logs evs /\
  length (auditAfter (user e) logId time logs evs) <= S (length logs) /\
  (user e = None -> auditAfter (user e) logId time logs evs = logs) /\
  forall entry,
    entry ∈ drop (length logs) (auditAfter (user e) logId time logs evs) ->
    exists u a r d,
      user e = Some u /\ AddLog a r d ∈ evs /\
      entry = AuditLogEntry.mk logId (User.id u) (User.name u)
                (role_name (User.role u)) a r d time "127.0.0.1".
Proof.
  intros Hrun. pose proof (one_audit_record_per_request e s op s' evs Hrun) as H1.
  destruct (auditAfter_prefix (user e) logId time evs logs) as (Hp & Hl & He).
  split; [exact Hp|]. split; [destruct (user e); lia|]. split; [|exact He].
  intros Hu. rewrite Hu in *. destruct Hp as [rest Hrest].
  rewrite Hrest, length_app in Hl. destruct rest; [now rewrite app_nil_r in Hrest|].
  simpl in Hl. lia.
Qed.

Lemma store_audit_trail_witness :
  length (auditAfter (user (envOf dpUser 200)) "log-1" 201%Z []
            (eventsOf (updateCell (envOf dpUser 200) qcCreated 0 1 fortyTwo))) <= 1 /\
  auditAfter (user signedOut) "log-1" 201%Z []
    (eventsOf (selectTable qcCreated "table-1")) = [].
Proof.
  split.
  - apply (store_audit_trail (envOf dpUser 200) qcCreated (UpdateCell 0 1 fortyTwo)
             qcEdited
             (eventsOf (updateCell (envOf dpUser 200) qcCreated 0 1 fortyTwo))
             "log-1" 201%Z []).
    vm_compute. reflexivity.
  - apply (store_audit_trail signedOut qcCreated (SelectTable "table-1")
             (stateAfter (selectTable qcCreated "table-1") qcCreated)
             (eventsOf (selectTable qcCreated "table-1")) "log-1" 201%Z []);
      [vm_compute; reflexivity|reflexivity].
Defined.

(** X16. An edit is audited exactly when it is accepted: a successful
    [updateCell] appends one record of action update on resource cell by
    the actor, and an [updateCell] that returns false, for whichever
    reason, leaves the trail as it was. *)
Theorem edit_audited_exactly_when_accepted e s r c v ok s' evs logId time logs :
  updateCell e s r c v = Returns ok s' evs ->
  if ok then
    exists u details,
      user e = Some u /\
      auditAfter (user e) logId time logs evs =
        logs ++ [AuditLogEntry.mk logId (User.id u) (User.name u)
                   (role_name (User.role u)) "update" "cell" details time "127.0.0.1"]
  else auditAfter (user e) logId time logs evs = logs.
Proof.
  unfold updateCell.
  destruct (currentTable s) as [t|]; [|intros [= <- _ <-]; reflexivity].
  destruct (user e) as [u|]; [|intros [= <- _ <-]; reflexivity].
  destruct (negb _); [intros [= <- _ <-]; reflexivity|].
  destruct (isConfirmed _); [intros [= <- _ <-]; reflexivity|].
  destruct (pushRows _ _ _); [|discriminate].
  destruct (rows_get _ _); [|discriminate].
  intros [= <- _ <-]. eexists u, _. split; reflexivity.
Qed.

Lemma edit_audited_exactly_when_accepted_witness :
  auditAfter (user (envOf dpUser 400)) "log-2" 401%Z []
    (eventsOf (updateCell (envOf dpUser 400) qcConfirmed 0 1 ninetyNine)) = [].
Proof.
  apply (edit_audited_exactly_when_accepted (envOf dpUser 400) qcConfirmed 0 1
           ninetyNine false qcConfirmed
           (eventsOf (updateCell (envOf dpUser 400) qcConfirmed 0 1 ninetyNine))
           "log-2" 401%Z []).
  vm_compute. reflexivity.
Defined.

(** X17. Refusals for lack of rights are not audited: [confirmCell] and
    [confirmTable] by an actor without [confirm_data], and
    [setCellPermissions] by an actor who is not an admin, leave both the
    store and the audit trail as they were. *)
Theorem rejections_are_not_audited e s u logId time logs :
  user e = Some u ->
  (includes (User.permissions u) "confirm_data" = false ->
   (forall r c cm s' evs,
      confirmCell e s r c cm = Returns tt s' evs ->
      s' = s /\ auditAfter (user e) logId time logs evs = logs) /\
   (forall cm s' evs,
      confirmTable e s cm = Returns tt s' evs ->
      s' = s /\ auditAfter (user e) logId time logs evs = logs)) /\
  (User.role u <> admin ->
   forall r c p s' evs,
     setCellPermissions e s r c p = Returns tt s' evs ->
     s' = s /\ auditAfter (user e) logId time logs evs = logs).
Proof.
  intros Hu. split.
  - intros Hp. split.
    + intros r c cm s' evs. unfold confirmCell. rewrite Hu, Hp.
      destruct (currentTable s); intros [= <- <-]; auto.
    + intros cm s' evs. unfold confirmTable. rewrite Hu, Hp.
      destruct (currentTable s); intros [= <- <-]; auto.
  - intros Hr r c p s' evs. unfold setCellPermissions. rewrite Hu.
    destruct (is_admin (User.role u)) eqn:E; [apply is_admin_true in E; contradiction|].
    destruct (currentTable s); intros [= <- <-]; auto.
Qed.

Lemma rejections_are_not_audited_witness :
  (stateAfter (confirmTable (envOf viewerUser 500) qcEdited None) qcEdited = qcEdited /\
   auditAfter (user (envOf viewerUser 500)) "log-3" 501%Z []
     (eventsOf (confirmTable (envOf viewerUser 500) qcEdited None)) = []) /\
  (stateAfter (setCellPermissions (envOf viewerUser 500) qcEdited 0 1 qaOnly) qcEdited
     = qcEdited /\
   auditAfter (user (envOf viewerUser 500)) "log-3" 501%Z []
     (eventsOf (setCellPermissions (envOf viewerUser 500) qcEdited 0 1 qaOnly)) = []).
Proof.
  destruct (rejections_are_not_audited (envOf viewerUser 500) qcEdited viewerUser
              "log-3" 501%Z [] eq_refl) as [H1 H2].
  split.
  - apply (proj2 (H1 eq_refl) None). vm_compute. reflexivity.
  - apply (H2 ltac:(discriminate) 0%Z 1%Z qaOnly). vm_compute. reflexivity.
Defined.

(** ** Identity provider *)

(** X18. [login] looks at the e-mail address only: for every password it
    signs in the mock user with that address, storing the same user in
    local storage, and for an address of no mock user it changes nothing
    and reports invalid credentials. *)
Theorem login_outcome st email password :
  (exists u,
     u ∈ mockUsers /\ User.email u = email /\
     login st email password =
       (true, mkAuth (Some u) (Some u),
        [Toast TSuccess [Lit "Welcome back, "; Lit (User.name u)]])) \/
  ((email ∉ (User.email <$> mockUsers)) /\
   login st email password = (false, st, [Toast TError [Lit "Invalid credentials"]])).
Proof.
  unfold login.
  destruct (List.find _ mockUsers) as [u|] eqn:E.
  - left. exists u. apply List.find_some in E as [Hin Heq].
    apply String.eqb_eq in Heq. split; [now apply list_elem_of_In|auto].
  - right. split; [|reflexivity]. intros Hin.
    apply list_elem_of_fmap in Hin as (u & -> & Hu).
    apply list_elem_of_In in Hu.
    pose proof (List.find_none _ _ E u Hu) as H. simpl in H.
    now rewrite String.eqb_refl in H.
Qed.

(** X19. The session survives a reload and ends with a logout: after a
    successful [login], mounting the provider again over the same local
    storage gives the same state, with the user signed in; after [logout]
    it gives a state with nobody signed in. *)
Theorem session_survives_reload st email password st' evs :
  login st email password = (true, st', evs) ->
  mountAuth (medytoxUser st') = st' /\
  is_Some (authUser st') /\
  authUser (mountAuth (medytoxUser (fst (logout st')))) = None.
Proof.
  unfold login. destruct (List.find _ _) as [u|]; [|discriminate].
  intros [= <- _]. simpl. repeat split. eauto.
Qed.

Lemma session_survives_reload_witness :
  mountAuth (medytoxUser (mkAuth (Some qaUser) (Some qaUser))) =
    mkAuth (Some qaUser) (Some qaUser) /\
  is_Some (authUser (mkAuth (Some qaUser) (Some qaUser))) /\
  authUser (mountAuth (medytoxUser (fst (logout (mkAuth (Some qaUser) (Some qaUser))))))
    = None.
Proof.
  apply (session_survives_reload (mkAuth None None) "qa@medytox.com" "any password"
           (mkAuth (Some qaUser) (Some qaUser))
           [Toast TSuccess [Lit "Welcome back, "; Lit "QA Team Member"]]).
  reflexivity.
Defined.

(** X20. The provider and the store disagree on an admin whose permission
    list lacks [confirm_data]: [hasPermission] grants it, by the admin
    clause, while [confirmCell] and [confirmTable], which read the list
    only, refuse with the permission toast and no change. *)
Theorem hasPermission_and_confirm_check e s t st u rowIndex colIndex comments :
  authUser st = Some u -> user e = Some u -> currentTable s = Some t ->
  User.role u = admin ->
  includes (User.permissions u) "confirm_data" = false ->
  hasPermission st "confirm_data" = true /\
  confirmCell e s rowIndex colIndex comments = Returns tt s [confirmToast] /\
  confirmTable e s comments = Returns tt s [confirmToast].
Proof.
  intros Hst Hu Ht Hr Hp. unfold hasPermission, confirmCell, confirmTable.
  rewrite Hst, Hu, Ht, Hp, Hr. repeat split.
Qed.

Lemma hasPermission_and_confirm_check_witness :
  hasPermission (mountAuth (Some bareAdmin)) "confirm_data" = true /\
  confirmCell (envOf bareAdmin 900) qcEdited 0 1 None =
    Returns tt qcEdited [confirmToast] /\
  confirmTable (envOf bareAdmin 900) qcEdited None = Returns tt qcEdited [confirmToast].
Proof.
  apply (hasPermission_and_confirm_check (envOf bareAdmin 900) qcEdited
           (selectedOr plainTable qcEdited) (mountAuth (Some bareAdmin)) bareAdmin
           0 1 None); reflexivity.
Defined.

(** ** Column names *)

(** More rounds than [num + 1] change nothing: the loop has stopped. *)
Lemma columnLoop_fuel fuel : forall fuel' num acc,
  Z.to_nat (num + 1) <= fuel -> Z.to_nat (num + 1) <= fuel' ->
  columnLoop fuel num acc = columnLoop fuel' num acc.
Proof.
  induction fuel as [|fuel IH]; intros fuel' num acc H1 H2.
  - destruct fuel' as [|fuel']; [reflexivity|]. simpl.
    destruct (decide (0 <= num)%Z); [lia|reflexivity].
  - simpl. destruct (decide (0 <= num)%Z) as [Hn|Hn].
    + destruct fuel' as [|fuel']; [lia|]. simpl.
      destruct (decide (0 <= num)%Z); [|lia].
      assert (num / 26 <= num)%Z by (apply Z.div_le_upper_bound; lia).
      apply IH; lia.
    + destruct fuel' as [|fuel']; [reflexivity|]. simpl.
      destruct (decide (0 <= num)%Z); [lia|reflexivity].
Qed.

Lemma letter_get i :
  (0 <= i < 26)%Z ->
  String.get (Z.to_nat i) base = Some (ascii_of_nat (65 + Z.to_nat i)).
Proof.
  intros H. assert (Hn : Z.to_nat i < 26) by lia.
  remember (Z.to_nat i) as n eqn:En. clear En H.
  do 26 (destruct n as [|n]; [reflexivity|]). lia.
Qed.

Lemma prependLetter_letter i acc :
  (0 <= i < 26)%Z ->
  prependLetter i acc = String (ascii_of_nat (65 + Z.to_nat i)) acc.
Proof.
  intros H. unfold prependLetter. destruct (decide (i < 0)%Z); [lia|].
  now rewrite letter_get.
Qed.

Lemma columnLoop_length fuel : forall num acc,
  String.length acc <= String.length (columnLoop fuel num acc).
Proof.
  induction fuel as [|fuel IH]; intros num acc; simpl; [lia|].
  destruct (decide (0 <= num)%Z); [|lia].
  etransitivity; [|apply IH].
  rewrite prependLetter_letter by (apply Z.mod_pos_bound; lia). simpl. lia.
Qed.

Lemma letter_inj i j :
  (0 <= i < 26)%Z -> (0 <= j < 26)%Z ->
  ascii_of_nat (65 + Z.to_nat i) = ascii_of_nat (65 + Z.to_nat j) -> i = j.
Proof.
  intros Hi Hj H. apply (f_equal nat_of_ascii) in H.
  rewrite !nat_ascii_embedding in H by lia. lia.
Qed.

Lemma columnLoop_inj fuel : forall n m acc1 acc2,
  (-1 <= n)%Z -> (-1 <= m)%Z ->
  Z.to_nat (n + 1) <= fuel -> Z.to_nat (m + 1) <= fuel ->
  String.length acc1 = String.length acc2 ->
  columnLoop fuel n acc1 = columnLoop fuel m acc2 ->
  n = m /\ acc1 = acc2.
Proof.
  induction fuel as [|fuel IH]; intros n m acc1 acc2 Hn Hm Hfn Hfm Hlen; simpl.
  - intros ->. split; [lia|reflexivity].
  - assert (Hdiv : forall k, (0 <= k)%Z -> (-1 <= k / 26 - 1)%Z /\
                              Z.to_nat (k / 26 - 1 + 1) <= Z.to_nat k).
    { intros k Hk. pose proof (Z.div_pos k 26 Hk ltac:(lia)).
      assert (k / 26 <= k)%Z by (apply Z.div_le_upper_bound; lia). lia. }
    destruct (decide (0 <= n)%Z) as [Hn0|Hn0], (decide (0 <= m)%Z) as [Hm0|Hm0].
    + rewrite !prependLetter_letter by (apply Z.mod_pos_bound; lia).
      intros H. destruct (Hdiv n Hn0), (Hdiv m Hm0).
      apply IH in H as [Hq Hacc]; try lia; [|simpl; lia].
      injection Hacc as Hl ->. split; [|reflexivity].
      apply letter_inj in Hl; try (apply Z.mod_pos_bound; lia).
      rewrite (Z.div_mod n 26), (Z.div_mod m 26) by lia. lia.
    + intros H. exfalso.
      pose proof (columnLoop_length fuel (n / 26 - 1) (prependLetter (n mod 26) acc1)) as L.
      rewrite H in L.
      rewrite prependLetter_letter in L by (apply Z.mod_pos_bound; lia).
      simpl in L. lia.
    + intros H. exfalso.
      pose proof (columnLoop_length fuel (m / 26 - 1) (prependLetter (m mod 26) acc2)) as L.
      rewrite <- H in L.
      rewrite prependLetter_letter in L by (apply Z.mod_pos_bound; lia).
      simpl in L. lia.
    + intros ->. split; [lia|reflexivity].
Qed.

(** X21. [getColumnName] gives different names to different columns. *)
Theorem getColumnName_injective i j :
  (0 <= i)%Z -> (0 <= j)%Z ->
  getColumnName i = getColumnName j -> i = j.
Proof.
  intros Hi Hj. unfold getColumnName.
  rewrite (columnLoop_fuel _ (Nat.max (Z.to_nat (i + 1)) (Z.to_nat (j + 1))) i)
    by lia.
  rewrite (columnLoop_fuel (Z.to_nat (j + 1))
             (Nat.max (Z.to_nat (i + 1)) (Z.to_nat (j + 1))) j) by lia.
  intros H. apply columnLoop_inj in H; [tauto|lia..|reflexivity].
Qed.

Lemma getColumnName_injective_witness : getColumnName 0 <> getColumnName 26.
Proof.
  intros H. apply (getColumnName_injective 0 26) in H; lia.
Defined.

Lemma append_assoc_str (a b c : string) : (a +:+ b) +:+ c = a +:+ (b +:+ c).
Proof.
  induction a as [|x a IH]; [reflexivity|].
  change (String x ((a +:+ b) +:+ c) = String x (a +:+ (b +:+ c))).
  now rewrite IH.
Qed.

Lemma columnLoop_acc fuel : forall num acc,
  columnLoop fuel num acc = columnLoop fuel num "" +:+ acc.
Proof.
  induction fuel as [|fuel IH]; intros num acc; simpl; [reflexivity|].
  destruct (decide (0 <= num)%Z); [|reflexivity].
  rewrite !prependLetter_letter by (apply Z.mod_pos_bound; lia).
  rewrite (IH _ (String _ acc)), (IH _ (String _ "")).
  now rewrite append_assoc_str.
Qed.

(** X22. The names follow the spreadsheet scheme A..Z, AA..AZ, BA, ...:
    a negative index has the empty name, and the name of column [n] from 0
    on is the name of column [n / 26 - 1] followed by letter number
    [n mod 26] of the alphabet. *)
Theorem getColumnName_recurrence colIndex :
  ((colIndex < 0)%Z -> getColumnName colIndex = "") /\
  ((0 <= colIndex)%Z ->
     getColumnName colIndex =
       getColumnName (colIndex / 26 - 1)
       +:+ String (ascii_of_nat (65 + Z.to_nat (colIndex mod 26))) "").
Proof.
  split; intros H; unfold getColumnName.
  - replace (Z.to_nat (colIndex + 1)) with 0 by lia. reflexivity.
  - destruct (Z.to_nat (colIndex + 1)) as [|f] eqn:E; [lia|].
    cbn [columnLoop]. destruct (decide (0 <= colIndex)%Z); [|lia].
    rewrite prependLetter_letter by (apply Z.mod_pos_bound; lia).
    rewrite columnLoop_acc. f_equal.
    assert (colIndex / 26 <= colIndex)%Z by (apply Z.div_le_upper_bound; lia).
    apply columnLoop_fuel; lia.
Qed.

Lemma getColumnName_recurrence_witness :
  getColumnName (-3) = "" /\
  getColumnName 0 = "A" /\ getColumnName 25 = "Z" /\ getColumnName 26 = "AA" /\
  getColumnName 701 = "ZZ" /\ getColumnName 702 = "AAA".
Proof.
  split; [apply (proj1 (getColumnName_recurrence (-3))); lia|].
  split; [rewrite (proj2 (getColumnName_recurrence 0)) by lia; reflexivity|].
  split; [rewrite (proj2 (getColumnName_recurrence 25)) by lia; reflexivity|].
  split; [rewrite (proj2 (getColumnName_recurrence 26)) by lia; reflexivity|].
  split; [rewrite (proj2 (getColumnName_recurrence 701)) by lia; reflexivity|].
  rewrite (proj2 (getColumnName_recurrence 702)) by lia; reflexivity.
Defined.

(** ** Permission dialog *)

Lemma savedPermissions_includes rp r :
  includes (CellPermissions.roles (savedPermissions rp)) (role_name r) = ticked rp r.
Proof.
  destruct rp as [[av ae] [dv de] [qv qe]].
  destruct r, av, ae, dv, de, qv, qe; reflexivity.
Qed.

(** X23. Saving the dialog pools the boxes: after [handleSavePermissions]
    by an admin on a stored cell, a user who is not an admin may edit the
    cell exactly when the role has some box ticked and some role has the
    edit box ticked, and may view it exactly when the role has some box
    ticked and some role has the view box ticked.  So a role ticked for
    viewing only gains editing as soon as another role is ticked for
    editing, and the viewer role, which has no row in the dialog, loses
    both. *)
Theorem dialog_save_pools_the_flags e s t u rowIndex colIndex rp cell isOpen :
  currentTable s = Some t -> user e = Some u -> User.role u = admin ->
  cell_at (TableData.rows t) rowIndex colIndex = Some cell ->
  exists s' evs t',
    handleSavePermissions e s (Some (rowIndex, colIndex)) rp isOpen =
      Returns false s' evs /\
    currentTable s' = Some t' /\
    forall e2 u2, user e2 = Some u2 -> User.role u2 <> admin ->
      canEditCell e2 s' rowIndex colIndex =
        ticked rp (User.role u2)
        && CellPermissions.editable (savedPermissions rp) /\
      canViewCell e2 s' rowIndex colIndex =
        ticked rp (User.role u2)
        && CellPermissions.viewable (savedPermissions rp).
Proof.
  intros Ht Hu Hr Hc.
  destruct (setCellPermissions_admin e s t u rowIndex colIndex (savedPermissions rp)
              cell Ht Hu Hr Hc) as (s' & evs & t' & Hrun & Ht' & _ & Hchecks).
  exists s', evs, t'. unfold handleSavePermissions. rewrite Hrun.
  split; [reflexivity|]. split; [exact Ht'|].
  intros e2 u2 Hu2 Hr2. rewrite <- savedPermissions_includes.
  now apply Hchecks.
Qed.

Lemma dialog_save_pools_the_flags_witness :
  exists s' evs t',
    handleSavePermissions (envOf adminUser 950) qcEdited (Some (0, 1)%Z)
      defaultRolePermissions true = Returns false s' evs /\
    currentTable s' = Some t' /\
    forall e2 u2, user e2 = Some u2 -> User.role u2 <> admin ->
      canEditCell e2 s' 0 1 =
        ticked defaultRolePermissions (User.role u2)
        && CellPermissions.editable (savedPermissions defaultRolePermissions) /\
      canViewCell e2 s' 0 1 =
        ticked defaultRolePermissions (User.role u2)
        && CellPermissions.viewable (savedPermissions defaultRolePermissions).
Proof.
  apply (dialog_save_pools_the_flags (envOf adminUser 950) qcEdited
           (selectedOr plainTable qcEdited) adminUser 0 1 defaultRolePermissions
           (cellOrEmpty qcEdited 0 1) true); reflexivity.
Defined.

(** X24. Reopening the dialog on a cell saved through it and saving again
    without touching a box writes the same permissions record: the boxes
    shown may differ from those ticked before, the record does not. *)
Theorem dialog_reopen_then_save rp t rowIndex colIndex cell :
  cell_at (TableData.rows t) rowIndex colIndex = Some cell ->
  Cell.permissions cell = Some (savedPermissions rp) ->
  savedPermissions (openCellPermissions t rowIndex colIndex) = savedPermissions rp.
Proof.
  intros Hc Hp. unfold openCellPermissions. rewrite Hc, Hp.
  destruct rp as [[av ae] [dv de] [qv qe]].
  destruct av, ae, dv, de, qv, qe; reflexivity.
Qed.

Lemma dialog_reopen_then_save_witness :
  savedPermissions
    (openCellPermissions
       (selectedOr plainTable
          (stateAfter (handleSavePermissions (envOf adminUser 950) qcEdited
                         (Some (0, 1)%Z) defaultRolePermissions true) qcEdited))
       0 1)
  = savedPermissions defaultRolePermissions /\
  openCellPermissions
    (selectedOr plainTable
       (stateAfter (handleSavePermissions (envOf adminUser 950) qcEdited
                      (Some (0, 1)%Z) defaultRolePermissions true) qcEdited))
    0 1
  <> defaultRolePermissions.
Proof.
  split; [|vm_compute; discriminate].
  eapply (dialog_reopen_then_save defaultRolePermissions _ 0 1);
    vm_compute; reflexivity.
Defined.

(** ** Export of the audit trail *)

Lemma concat_snoc sep (l : list string) x :
  l <> [] -> String.concat sep (l ++ [x]) = String.concat sep l +:+ sep +:+ x.
Proof.
  induction l as [|a l IH]; [contradiction|]. intros _.
  destruct l as [|b l]; [reflexivity|].
  change (a +:+ sep +:+ String.concat sep ((b :: l) ++ [x]) =
          (a +:+ sep +:+ String.concat sep (b :: l)) +:+ sep +:+ x).
  rewrite IH by discriminate. now rewrite !append_assoc_str.
Qed.

Section AuditExportFacts.

Variable renderDetails : list Fragment -> string.
Variable toISOString : Date -> string.

(** X30. The export follows the trail: the file for an empty trail (also
    after [clearLogs]) is the header line alone; a record added by
    [addLog] extends the content by a line break and the line of that
    record, leaving the lines before as they were; and an [addLog] with
    nobody signed in leaves the content unchanged. *)
Theorem exportLogs_follows_trail logs u logId time actionType resource details t1 t2 :
  snd (exportLogs renderDetails toISOString (clearLogs logs) t1) = auditHeader /\
  snd (exportLogs renderDetails toISOString
         (addLog (Some u) logId time logs actionType resource details) t2) =
    snd (exportLogs renderDetails toISOString logs t1) +:+ newline +:+
    logLine renderDetails toISOString
      (AuditLogEntry.mk logId (User.id u) (User.name u) (role_name (User.role u))
         actionType resource details time "127.0.0.1") /\
  snd (exportLogs renderDetails toISOString
         (addLog None logId time logs actionType resource details) t2) =
    snd (exportLogs renderDetails toISOString logs t1).
Proof.
  split; [reflexivity|]. split; [|reflexivity].
  unfold exportLogs, addLog. cbn [snd]. rewrite fmap_app.
  change (auditHeader :: (logLine renderDetails toISOString <$> logs) ++ _)
    with ((auditHeader :: (logLine renderDetails toISOString <$> logs)) ++
          [logLine renderDetails toISOString
             (AuditLogEntry.mk logId (User.id u) (User.name u)
                (role_name (User.role u)) actionType resource details time
                "127.0.0.1")]).
  now rewrite concat_snoc by discriminate.
Qed.

End AuditExportFacts.

(** ** New-spreadsheet form *)

Section TableListFacts.

Variable trim : string -> string.

Lemma validColumns_nonblank form :
  Forall (fun h => trim h <> "") (validColumns trim form).
Proof.
  apply Forall_forall. intros h Hin. apply list_elem_of_In in Hin.
  unfold validColumns in Hin. apply List.filter_In in Hin as [_ H].
  apply negb_true_iff, String.eqb_neq in H. exact H.
Qed.

(** X25. [handleCreateTable]: with a blank name, or with no column name
    that is not blank, nothing happens and the form stays as filled in.
    Otherwise the form is reset, also when nobody is signed in and the
    store therefore creates nothing; and with a user signed in (and the
    drawn id not in use) the table selected afterwards has the name as
    typed, the non-blank column names in their order as headers, at least
    one header and none blank, and ten rows, each as long as the headers. *)
Theorem handleCreateTable_result e s form form' s' evs :
  handleCreateTable trim e s form = Returns form' s' evs ->
  (trim (newTableName form) = "" \/ validColumns trim form = [] ->
     form' = form /\ s' = s /\ evs = []) /\
  (trim (newTableName form) <> "" -> validColumns trim form <> [] ->
     form' = mkForm false "" [""] /\
     (user e = None -> s' = s) /\
     (forall u, user e = Some u -> findTable (tables s) (uuid e) = None ->
        exists t,
          currentTable s' = Some t /\
          TableData.name t = newTableName form /\
          TableData.headers t = validColumns trim form /\
          TableData.headers t <> [] /\
          Forall (fun h => trim h <> "") (TableData.headers t) /\
          length (TableData.rows t) = 10 /\
          rowsMatchHeaders t)).
Proof.
  unfold handleCreateTable. intros H. split.
  - intros Hbad.
    destruct (String.eqb_spec (trim (newTableName form)) "") as [Hn|Hn];
      [injection H as <- <- <-; auto|].
    destruct Hbad as [Hb|Hb]; [contradiction|]. rewrite Hb in H. simpl in H.
    injection H as <- <- <-; auto.
  - intros Hn Hcols.
    destruct (String.eqb_spec (trim (newTableName form)) "") as [Hn'|_];
      [contradiction|].
    destruct (validColumns trim form) as [|h hs] eqn:Ev; [contradiction|].
    simpl in H. rewrite <- Ev in *.
    destruct (createTable e s (newTableName form) (validColumns trim form) None)
      as [[] s1 evs1|x] eqn:Hcreate; [|discriminate].
    injection H as <- <- <-. split; [reflexivity|]. split.
    + intros Hu. unfold createTable in Hcreate. rewrite Hu in Hcreate.
      now injection Hcreate as <- _.
    + intros u Hu Hfresh.
      assert (Hten : (initialRowCount None <= maxLength)%Z)
        by (unfold maxLength; simpl; lia).
      destruct (createTable_fresh e s u (newTableName form) (validColumns trim form)
                  None Hu Hfresh Hten)
        as (s2 & evs2 & t & Hrun & Htabs & Hcur & _ & Hname & Hh & _ & Hlen & _).
      destruct (createTable_shape e s u (newTableName form) (validColumns trim form)
                  None Hu Hten)
        as (t2 & evs3 & Hrun2 & _ & _ & Hshape).
      rewrite Hcreate in Hrun, Hrun2. injection Hrun as <- _.
      injection Hrun2 as Htabs2 _. apply (f_equal tables) in Htabs2.
      simpl in Htabs2. rewrite Htabs in Htabs2.
      apply app_inj_tail in Htabs2 as [_ <-].
      exists t. split; [exact Hcur|]. split; [exact Hname|]. split; [exact Hh|].
      rewrite Hh. split; [exact Hcols|]. split; [apply validColumns_nonblank|].
      split; [exact Hlen|exact Hshape].
Qed.

End TableListFacts.

Lemma handleCreateTable_result_witness :
  stateAfter (handleCreateTable trimSpaces signedOut qcCreated sampleForm) qcCreated
    = qcCreated /\
  exists t,
    currentTable
      (stateAfter (handleCreateTable trimSpaces (secondEnv dpUser 170) qcCreated
                     sampleForm) qcCreated) = Some t /\
    TableData.name t = "Assay" /\
    TableData.headers t = ["Lot"; "Potency"].
Proof.
  split.
  - destruct (proj2 (handleCreateTable_result trimSpaces signedOut qcCreated sampleForm
                       (mkForm false "" [""])
                       (stateAfter (handleCreateTable trimSpaces signedOut qcCreated
                                      sampleForm) qcCreated)
                       [] eq_refl))
      as (_ & Hout & _); [vm_compute; discriminate|vm_compute; discriminate|].
    exact (Hout eq_refl).
  - destruct (handleCreateTable_result trimSpaces (secondEnv dpUser 170) qcCreated
                sampleForm (mkForm false "" [""])
                (stateAfter (handleCreateTable trimSpaces (secondEnv dpUser 170)
                               qcCreated sampleForm) qcCreated)
                (eventsOf (handleCreateTable trimSpaces (secondEnv dpUser 170)
                             qcCreated sampleForm)) eq_refl) as [_ H].
    destruct H as (_ & _ & H); [vm_compute; discriminate|vm_compute; discriminate|].
    destruct (H dpUser eq_refl eq_refl) as (t & H1 & H2 & H3 & _).
    exists t. split; [exact H1|]. split; [exact H2|]. rewrite H3. reflexivity.
Defined.

(** ** CSV export: when it throws *)

Lemma mapM_None_inv {A B} (f : A -> option B) (l : list A) :
  mapM f l = None <-> exists x, x ∈ l /\ f x = None.
Proof.
  split.
  - induction l as [|a l IH]; simpl; [discriminate|].
    destruct (f a) as [b|] eqn:Ea; simpl.
    + destruct (mapM f l) as [k|]; simpl; [discriminate|].
      intros _. destruct (IH eq_refl) as (x & Hx & Hf).
      exists x. split; [now right|exact Hf].
    + intros _. exists a. split; [now left|exact Ea].
  - intros (x & Hx & Hf). destruct (mapM f l) as [k|] eqn:E; [|reflexivity].
    assert (Hs : is_Some (mapM f l)) by eauto.
    apply mapM_is_Some in Hs. apply (proj1 (Forall_forall _ _) Hs) in Hx.
    simpl in Hx. rewrite Hf in Hx. destruct Hx as [y Hy]. discriminate.
Qed.

Section ExportThrows.

Variable numberToString : spec_float -> string.

Lemma csvLine_None row :
  csvLine numberToString row = None <-> Undefined ∈ Row.elems row.
Proof.
  unfold csvLine.
  destruct (mapM (slotText numberToString) (Row.elems row)) as [fields|] eqn:E; simpl.
  - split; [discriminate|]. intros Hin.
    assert (H : mapM (slotText numberToString) (Row.elems row) = None)
      by (apply mapM_None_inv; exists Undefined; auto).
    congruence.
  - split; [|reflexivity]. intros _.
    apply mapM_None_inv in E as (slot & Hin & Hs).
    destruct slot; try discriminate. exact Hin.
Qed.

(** X26. [handleExportCSV] on a selected table ends in a TypeError exactly
    when some row holds an [undefined] slot (the callback reads
    [cell.value] of it); on every other table it produces the file, holes
    printing as empty fields. *)
Theorem export_throws_iff t includeHeaders :
  handleExportCSV numberToString (Some t) includeHeaders = ExportThrows TypeError <->
  exists row, row ∈ TableData.rows t /\ Undefined ∈ Row.elems row.
Proof.
  unfold handleExportCSV, csvContent.
  destruct (mapM (csvLine numberToString) (TableData.rows t)) as [lines|] eqn:E;
    simpl.
  - split; [discriminate|]. intros (row & Hrow & Hu).
    assert (H : mapM (csvLine numberToString) (TableData.rows t) = None).
    { apply mapM_None_inv. exists row. split; [exact Hrow|]. now apply csvLine_None. }
    congruence.
  - split; [|reflexivity]. intros _.
    apply mapM_None_inv in E as (row & Hrow & Hline).
    exists row. split; [exact Hrow|]. now apply csvLine_None.
Qed.

End ExportThrows.

Lemma export_throws_iff_witness :
  handleExportCSV (fun _ => "") (currentTable qcWideThenColumn) true =
    ExportThrows TypeError.
Proof.
  change (currentTable qcWideThenColumn)
    with (Some (selectedOr plainTable qcWideThenColumn)).
  apply (proj2 (export_throws_iff (fun _ => "")
                  (selectedOr plainTable qcWideThenColumn) true)).
  eexists. split; [left|]. vm_compute. do 2 right. left.
Defined.

(** ** Examples for the lemmas on runs of requests *)

Lemma confirmed_cell_stays_locked_witness :
  Cell.value (cellOrEmpty qcLater 0 1) = Cell.value (cellOrEmpty qcConfirmed 0 1) /\
  Cell.history (cellOrEmpty qcLater 0 1) = Cell.history (cellOrEmpty qcConfirmed 0 1) /\
  forall e value, exists evs,
    updateCell e qcLater 0 1 value = Returns false qcLater evs.
Proof.
  apply (confirmed_cell_stays_locked laterSteps qcConfirmed
           (selectedOr plainTable qcConfirmed) 0 1 (cellOrEmpty qcConfirmed 0 1)
           qcLater);
    [vm_compute; reflexivity | vm_compute; reflexivity | reflexivity
    | unfold maxLength; lia | repeat constructor | vm_compute; reflexivity].
Defined.


Lemma updateSeq_history_witness :
  Cell.history (cellOrEmpty qcCreated 0 1)
    `prefix_of` Cell.history (cellOrEmpty qcEditedTwice 0 1) /\
  length (Cell.history (cellOrEmpty qcEditedTwice 0 1)) =
    length (Cell.history (cellOrEmpty qcCreated 0 1)) + length twoEdits.
Proof.
  apply (updateSeq_history twoEdits qcCreated 0 1 qcEditedTwice).
  vm_compute. reflexivity.
Defined.
